(** * shift: layered configuration loading (environment over file)

    A shallow embedding of [shift.go] and the properties of its binder:
    key derivation ([toCamel], [getKeyName]), the bounds converters
    ([int64ToInt], [uint64ToUint]), the two value parsers ([assignFromEnv],
    [assignFromIntf]), the field loop ([bind]) and the entry point ([Load]).

    Go strings are modelled by their rune sequence (what [[]rune(s)] yields
    and what [bytes.Buffer.WriteRune] writes back); integers are [Z] with
    the wrap-around of each conversion written out. *)

From Stdlib Require Import ZArith String Ascii List Bool Lia.
From stdpp Require Import base option list gmap sorting.

Set Warnings "-register-all".
Open Scope Z_scope.

(** ** Strings and runes *)

Abbreviation rune := Z (only parsing).
Abbreviation gostring := (list Z).

(** An ASCII literal as the rune sequence of the Go literal. *)
Definition str (s : string) : gostring :=
  map (fun a => Z.of_N (N_of_ascii a)) (list_ascii_of_string s).

Definition underscore : rune := 95.

(** ** Package [unicode]

    [toCamel] calls [unicode.IsUpper] and [unicode.ToLower], [bind] calls
    [strings.ToUpper].  The tables behind them are not part of this
    repository; they are an interface here.  What the Go sources fix for
    every release is the ASCII fast path of the two functions, recorded as
    the two laws of the class. *)

Definition ascii_IsUpper (r : rune) : bool := (65 <=? r) && (r <=? 90).
Definition ascii_ToLower (r : rune) : rune := if ascii_IsUpper r then r + 32 else r.
Definition ascii_ToUpper (r : rune) : rune :=
  if (97 <=? r) && (r <=? 122) then r - 32 else r.

Class CaseTables := {
  IsUpper : rune -> bool;
  ToLower : rune -> rune;
  ToUpper : rune -> rune;
  IsUpper_ascii : forall r, 0 <= r <= 127 -> IsUpper r = ascii_IsUpper r;
  ToLower_ascii : forall r, 0 <= r <= 127 -> ToLower r = ascii_ToLower r
}.

Section KeyResolver.
Context {U : CaseTables}.

(** One iteration of the loop of [toCamel]: the state is the buffer [b]
    and the flag [last]; [r] is the rune slice and [ln] its length. *)
Definition toCamel_body (r : list rune) (ln : nat)
    (st : list rune * bool) (i : nat) : list rune * bool :=
  let '(b, last) := st in
  let upper := IsUpper (nth i r 0) in
  let b :=
    if negb (i =? 0)%nat && upper then
      if negb last then b ++ [underscore]
      else if (i + 1 <? ln)%nat && negb (IsUpper (nth (i + 1) r 0))
           then b ++ [underscore]
           else b
    else b in
  (b ++ [ToLower (nth i r 0)], upper).

Definition toCamel (s : gostring) : gostring :=
  let r := s in
  let ln := length r in
  fst (fold_left (toCamel_body r ln) (seq 0 ln) ([], false)).

(** The rule of the specification, position by position: an underscore
    goes before the rune at [i] exactly when that rune is uppercase, is
    not the first one, and either the rune before it is not uppercase or
    a rune follows that is not uppercase. *)
Definition underscore_before (r : list rune) (i : nat) : bool :=
  IsUpper (nth i r 0) && negb (i =? 0)%nat &&
  (negb (IsUpper (nth (i - 1) r 0)) ||
   ((i + 1 <? length r)%nat && negb (IsUpper (nth (i + 1) r 0)))).

(** What the rule writes for position [i], and for the whole string. *)
Definition camel_piece (r : list rune) (i : nat) : list rune :=
  (if underscore_before r i then [underscore] else []) ++ [ToLower (nth i r 0)].

Definition toCamel_spec (r : list rune) : list rune :=
  flat_map (camel_piece r) (seq 0 (length r)).

(** A rune that no case mapping touches. *)
Definition caseless (r : rune) : Prop := IsUpper r = false /\ ToLower r = r.

(** A rune whose lower-case form is caseless. *)
Definition lowers (r : rune) : Prop := caseless (ToLower r).

End KeyResolver.

Definition is_ascii (s : gostring) : Prop := Forall (fun r => 0 <= r <= 127) s.

(** ** Package [reflect]: kinds and types *)

Inductive kind :=
| KInvalid | KBool | KInt | KInt8 | KInt16 | KInt32 | KInt64
| KUint | KUint8 | KUint16 | KUint32 | KUint64 | KUintptr
| KFloat32 | KFloat64 | KComplex64 | KComplex128
| KArray | KChan | KFunc | KInterface | KMap | KPtr | KSlice | KString
| KStruct | KUnsafePointer.

#[global] Instance kind_eq_dec : EqDecision kind.
Proof. solve_decision. Defined.

(** The type of a field: [shift.go] observes its [Kind()], its [String()]
    and its identity (the comparisons with [typeTime], [typeDuration] and
    [typeStringArr]). *)
Record rtype := mkType { rkind : kind; rname : gostring }.

#[global] Instance rtype_eq_dec : EqDecision rtype.
Proof. solve_decision. Defined.

Definition typeTime : rtype := mkType KStruct (str "time.Time").
Definition typeDuration : rtype := mkType KInt64 (str "time.Duration").
Definition typeStringArr : rtype := mkType KSlice (str "[]string").

(** [reflect.StructField]: [Tag] is the value of [f.Tag.Get("shift")],
    empty when the field carries no such tag. *)
Record StructField := mkField { Name : gostring; Tag : gostring; Type_ : rtype }.

(** The dynamic type of the argument [c] of [Load]. *)
Inductive ArgType :=
| TyOther (t : rtype)
| TyStruct (name : gostring) (fields : list StructField)
| TyPtr (elem : ArgType).

Definition Kind (t : ArgType) : kind :=
  match t with
  | TyOther t => rkind t
  | TyStruct _ _ => KStruct
  | TyPtr _ => KPtr
  end.

Fixpoint TypeString (t : ArgType) : gostring :=
  match t with
  | TyOther t => rname t
  | TyStruct name _ => name
  | TyPtr e => str "*" ++ TypeString e
  end.

(** [typ.Elem()], called by [Load] only once [typ.Kind()] is [Ptr]. *)
Definition Elem (t : ArgType) : ArgType :=
  match t with
  | TyPtr e => e
  | _ => t
  end.

Definition Fields (t : ArgType) : list StructField :=
  match t with
  | TyStruct _ fs => fs
  | _ => []
  end.

(** ** Values, errors and the observable world *)

Inductive PanicReason :=
| PanicNilType              (* method call on the nil [reflect.Type] *)
| PanicInterfaceConversion  (* failed single-value type assertion *)
| PanicSetNotAssignable     (* [reflect.Value.Set] with a value of another type *)
| PanicSetKind.             (* [SetInt]/[SetUint] on a value of another kind *)

Inductive Result (A : Type) :=
| Ok (a : A)
| Panic (p : PanicReason).
Arguments Ok {A} a.
Arguments Panic {A} p.

Section Data.
Context {Float64 Time ExtError : Type}.

(** What the decoder stores behind an [interface{}]. *)
Inductive Dyn :=
| DString (s : gostring)
| DBool (b : bool)
| DInt64 (i : Z)
| DFloat64 (f : Float64)
| DTime (t : Time)
| DSlice (l : list Dyn)                      (* []interface{} *)
| DMap (m : option (gmap gostring Dyn))      (* map[string]interface{}; None is the nil map *)
| DMaps (l : list (gmap gostring Dyn)).      (* []map[string]interface{} *)

(** [reflect.TypeOf(val).String()] *)
Definition dynTypeString (d : Dyn) : gostring :=
  match d with
  | DString _ => str "string"
  | DBool _ => str "bool"
  | DInt64 _ => str "int64"
  | DFloat64 _ => str "float64"
  | DTime _ => str "time.Time"
  | DSlice _ => str "[]interface {}"
  | DMap _ => str "map[string]interface {}"
  | DMaps _ => str "[]map[string]interface {}"
  end.

(** The content of a field of the target record. *)
Inductive Value :=
| VString (s : gostring)
| VBool (b : bool)
| VInt (i : Z)
| VUint (u : Z)
| VFloat64 (f : Float64)
| VTime (t : Time)
| VStrings (l : list gostring)
| VOpaque.

Inductive Error :=
| ErrNotStructPtr (was : gostring)
| ErrInvalidBool (envVal : gostring)
| ErrUnsupportedStruct (ty : gostring)
| ErrUnsupportedConversion (ty dyn : gostring)
| ErrIntegerTooBig (i : Z)
| ErrIntegerTooSmall (i : Z)
| ErrUnsignedTooBig (u : Z)
| ErrAssignKey (key : gostring) (cause : Error)   (* errors.Wrapf *)
| ErrExt (e : ExtError).

(** Calls that leave the binder, newest first.  The index is the field
    the loop of [bind] is at. *)
Inductive Event :=
| EvDecodeFile (file : gostring)
| EvGetenv (i : nat) (name : gostring)
| EvConfig (i : nat) (key : gostring)
| EvSet (i : nat) (v : Value).

Definition event_field (e : Event) : option nat :=
  match e with
  | EvDecodeFile _ => None
  | EvGetenv i _ | EvConfig i _ | EvSet i _ => Some i
  end.

(** The record [c] points to, and the calls made so far.  The record is
    one [reflect] lets [bind] write to: the pointer is not nil and the
    fields are exported. *)
Record World := mkWorld { fields : list Value; trace : list Event }.

Definition M (A : Type) : Type := World -> Result A * World.

#[global] Instance M_ret : MRet M := fun A a w => (Ok a, w).
#[global] Instance M_bind : MBind M := fun A B f m w =>
  match m w with
  | (Ok a, w') => f a w'
  | (Panic p, w') => (Panic p, w')
  end.

Definition panic {A} (p : PanicReason) : M A := fun w => (Panic p, w).
Definition lift {A} (r : Result A) : M A := fun w => (r, w).

(** The world after the call [e] has been made, and after the field at
    [i] has been set to [v]. *)
Definition noted (e : Event) (w : World) : World :=
  mkWorld (fields w) (e :: trace w).
Definition stored (i : nat) (v : Value) (w : World) : World :=
  mkWorld (<[i:=v]> (fields w)) (EvSet i v :: trace w).

Definition emit (e : Event) : M unit := fun w => (Ok tt, noted e w).
Definition store (i : nat) (v : Value) : M unit := fun w => (Ok tt, stored i v w).

(** Field [j] holds what it held and no store to it was added. *)
Definition untouched (j : nat) (w w' : World) : Prop :=
  fields w' !! j = fields w !! j /\
  forall v, EvSet j v ∈ trace w' -> EvSet j v ∈ trace w.

(** Field [j] holds what it held and no call about it was added:
    neither source was asked for it and nothing was stored. *)
Definition unseen (j : nat) (w w' : World) : Prop :=
  fields w' !! j = fields w !! j /\
  forall e, e ∈ trace w' -> event_field e = Some j -> e ∈ trace w.

End Data.
Arguments Dyn : clear implicits.
Arguments Value : clear implicits.
Arguments Error : clear implicits.
Arguments Event : clear implicits.
Arguments World : clear implicits.
Arguments M : clear implicits.

(** ** Collaborators

    Everything [shift.go] imports: the width of [int], the parsers of
    [strconv] and [time], [os.IsNotExist], the process environment and the
    file decoder behind [testHarnessDecodeFile].  The decoder gives back
    what it stored through [&i] (the nil interface when it stored nothing)
    and its error; the one law is that of a missing file. *)
Class Platform := {
  Float64 : Type;
  Time : Type;
  ExtError : Type;
  sizeOfInt : Z;
  ParseInt : gostring -> Z -> ExtError + Z;        (* strconv.ParseInt(s, 10, bitSize) *)
  ParseUint : gostring -> Z -> ExtError + Z;       (* strconv.ParseUint(s, 10, bitSize) *)
  ParseFloat : gostring -> ExtError + Float64;     (* strconv.ParseFloat(s, 64) *)
  ParseDuration : gostring -> ExtError + Z;        (* time.ParseDuration *)
  ParseRFC3339 : gostring -> ExtError + Time;      (* time.Parse(time.RFC3339, s) *)
  IsNotExist : ExtError -> bool;                   (* os.IsNotExist *)
  Getenv : gostring -> gostring;                   (* os.Getenv *)
  testHarnessDecodeFile :
    gostring -> option (Dyn Float64 Time) * option ExtError;
  (* toml.DecodeFile reads the file before it decodes: when the file is
     not there it returns the error of the read and stores nothing *)
  decode_missing_file : forall file i e,
    testHarnessDecodeFile file = (i, Some e) -> IsNotExist e = true -> i = None
}.

Definition MaxInt32 : Z := 2147483647.
Definition MinInt32 : Z := -2147483648.
Definition MaxUint32 : Z := 4294967295.

(** Integer conversions: the value modulo the width of the target. *)
Definition wrap_signed (bits x : Z) : Z :=
  (x + 2 ^ (bits - 1)) mod 2 ^ bits - 2 ^ (bits - 1).
Definition wrap_unsigned (bits x : Z) : Z := x mod 2 ^ bits.

Definition int64_range (i : Z) : Prop := - 2 ^ 63 <= i < 2 ^ 63.
Definition uint64_range (u : Z) : Prop := 0 <= u < 2 ^ 64.

Abbreviation dyn_t := (Dyn Float64 Time).
Abbreviation value_t := (Value Float64 Time).
Abbreviation error_t := (Error ExtError).
Abbreviation world_t := (World Float64 Time).
Abbreviation act := (M Float64 Time).
Abbreviation config_t := (option (gmap gostring (Dyn Float64 Time))).

Section Shift.
Context {U : CaseTables} {P : Platform}.

(** *** Numeric bounds converter *)

Definition int_of_int64 (i : Z) : Z := wrap_signed (sizeOfInt * 8) i.     (* int(i) *)
Definition uint_of_uint64 (u : Z) : Z := wrap_unsigned (sizeOfInt * 8) u. (* uint(u) *)
Definition uint64_of_int64 (i : Z) : Z := wrap_unsigned 64 i.             (* uint64(i) *)

Definition int64ToInt (i : Z) : error_t + Z :=
  if sizeOfInt =? 8 then inr (int_of_int64 i)
  else if i >? MaxInt32 then inl (ErrIntegerTooBig i)
  else if i <? MinInt32 then inl (ErrIntegerTooSmall i)
  else inr (int_of_int64 i).

Definition uint64ToUint (u : Z) : error_t + Z :=
  if sizeOfInt =? 8 then inr (uint_of_uint64 u)
  else if u >? MaxUint32 then inl (ErrUnsignedTooBig u)
  else inr (uint_of_uint64 u).

(** *** Key resolver *)

Definition getKeyName (f : StructField) : gostring :=
  let tag := Tag f in
  if bool_decide (tag = str "-") then []
  else if negb (length tag =? 0)%nat then tag
  else toCamel (Name f).

(** *** Setters of [reflect.Value], on the field at index [i] *)

Definition SetString (i : nat) (x : gostring) : act unit := store i (VString x).
Definition SetBool (i : nat) (x : bool) : act unit := store i (VBool x).
Definition SetFloat (i : nat) (x : Float64) : act unit := store i (VFloat64 x).

Definition SetInt (k : kind) (i : nat) (x : Z) : act unit :=
  match k with
  | KInt => store i (VInt (int_of_int64 x))
  | KInt8 => store i (VInt (wrap_signed 8 x))
  | KInt16 => store i (VInt (wrap_signed 16 x))
  | KInt32 => store i (VInt (wrap_signed 32 x))
  | KInt64 => store i (VInt x)
  | _ => panic PanicSetKind
  end.

Definition SetUint (k : kind) (i : nat) (x : Z) : act unit :=
  match k with
  | KUint | KUintptr => store i (VUint (uint_of_uint64 x))
  | KUint8 => store i (VUint (wrap_unsigned 8 x))
  | KUint16 => store i (VUint (wrap_unsigned 16 x))
  | KUint32 => store i (VUint (wrap_unsigned 32 x))
  | KUint64 => store i (VUint x)
  | _ => panic PanicSetKind
  end.

(** *** Value parser, environment source *)

Definition assignFromEnv (envVal : gostring) (fieldType : rtype) (i : nat)
    : act (option error_t) :=
  match rkind fieldType with
  | KString => SetString i envVal;; mret None
  | KBool =>
      if negb (bool_decide (envVal = str "true"))
         && negb (bool_decide (envVal = str "false"))
      then mret (Some (ErrInvalidBool envVal))
      else
        (if bool_decide (envVal = str "true")
         then SetBool i true else SetBool i false);;
        mret None
  | KInt =>
      match ParseInt envVal (sizeOfInt * 8) with
      | inl err => mret (Some (ErrExt err))
      | inr n => SetInt (rkind fieldType) i n;; mret None
      end
  | KInt64 =>
      if bool_decide (fieldType = typeDuration) then
        match ParseDuration envVal with
        | inl err => mret (Some (ErrExt err))
        | inr dur => SetInt (rkind fieldType) i dur;; mret None
        end
      else
        match ParseInt envVal 64 with
        | inl err => mret (Some (ErrExt err))
        | inr n => SetInt (rkind fieldType) i n;; mret None
        end
  | KUint =>
      match ParseUint envVal (sizeOfInt * 8) with
      | inl err => mret (Some (ErrExt err))
      | inr u => SetUint (rkind fieldType) i u;; mret None
      end
  | KUint64 =>
      match ParseUint envVal 64 with
      | inl err => mret (Some (ErrExt err))
      | inr u => SetUint (rkind fieldType) i u;; mret None
      end
  | KFloat64 =>
      match ParseFloat envVal with
      | inl err => mret (Some (ErrExt err))
      | inr f => SetFloat i f;; mret None
      end
  | KStruct =>
      if negb (bool_decide (fieldType = typeTime))
      then mret (Some (ErrUnsupportedStruct (rname fieldType)))
      else
        match ParseRFC3339 envVal with
        | inl err => mret (Some (ErrExt err))
        | inr date => store i (VTime date);; mret None
        end
  | _ => mret (Some (ErrUnsupportedStruct (rname fieldType)))
  end.

(** The environment value parser as a function from text to a value
    (section 4.3 of the specification). *)
Definition parseEnv (envVal : gostring) (fieldType : rtype) : error_t + value_t :=
  let ext {A} (r : ExtError + A) (f : A -> value_t) : error_t + value_t :=
    match r with
    | inl err => inl (ErrExt err)
    | inr x => inr (f x)
    end in
  match rkind fieldType with
  | KString => inr (VString envVal)
  | KBool =>
      if bool_decide (envVal = str "true") then inr (VBool true)
      else if bool_decide (envVal = str "false") then inr (VBool false)
      else inl (ErrInvalidBool envVal)
  | KInt => ext (ParseInt envVal (sizeOfInt * 8)) (fun n => VInt (int_of_int64 n))
  | KInt64 =>
      if bool_decide (fieldType = typeDuration)
      then ext (ParseDuration envVal) VInt
      else ext (ParseInt envVal 64) VInt
  | KUint => ext (ParseUint envVal (sizeOfInt * 8)) (fun u => VUint (uint_of_uint64 u))
  | KUint64 => ext (ParseUint envVal 64) VUint
  | KFloat64 => ext (ParseFloat envVal) VFloat64
  | KStruct =>
      if bool_decide (fieldType = typeTime)
      then ext (ParseRFC3339 envVal) VTime
      else inl (ErrUnsupportedStruct (rname fieldType))
  | _ => inl (ErrUnsupportedStruct (rname fieldType))
  end.

(** The field types the switch of [assignFromEnv] has a parser for. *)
Definition env_parses (t : rtype) : bool :=
  match rkind t with
  | KString | KBool | KInt | KInt64 | KUint | KUint64 | KFloat64 => true
  | KStruct => bool_decide (t = typeTime)
  | _ => false
  end.

(** *** Value parser, decoded-file source *)

Definition unsupportedConversion (val : dyn_t) (fieldType : rtype) : act (option error_t) :=
  mret (Some (ErrUnsupportedConversion (rname fieldType) (dynTypeString val))).

(** [str, _ := s[i].(string)]: the zero string unless the element is one. *)
Definition stringOrZero (x : dyn_t) : gostring :=
  match x with
  | DString s => s
  | _ => []
  end.

Definition assignFromIntf (val : dyn_t) (fieldType : rtype) (i : nat)
    : act (option error_t) :=
  match rkind fieldType with
  | KString =>
      match val with
      | DString s => SetString i s;; mret None
      | _ => unsupportedConversion val fieldType
      end
  | KBool =>
      match val with
      | DBool b => SetBool i b;; mret None
      | _ => unsupportedConversion val fieldType
      end
  | KInt =>
      match val with
      | DInt64 x =>
          match int64ToInt x with
          | inl err => mret (Some err)
          | inr _ => SetInt (rkind fieldType) i x;; mret None
          end
      | _ => unsupportedConversion val fieldType
      end
  | KInt64 =>
      if bool_decide (fieldType = typeDuration) then
        match val with
        | DString s =>
            match ParseDuration s with
            | inl err => mret (Some (ErrExt err))
            | inr d => store i (VInt d);; mret None
            end
        | _ => unsupportedConversion val fieldType
        end
      else
        match val with
        | DInt64 x =>
            match int64ToInt x with
            | inl err => mret (Some err)
            | inr _ => SetInt (rkind fieldType) i x;; mret None
            end
        | _ => unsupportedConversion val fieldType
        end
  | KUint =>
      match val with
      | DInt64 x =>
          match uint64ToUint (uint64_of_int64 x) with
          | inl err => mret (Some err)
          | inr _ => SetUint (rkind fieldType) i (uint64_of_int64 x);; mret None
          end
      | _ => unsupportedConversion val fieldType
      end
  | KUint64 =>
      match val with
      | DInt64 x => SetUint (rkind fieldType) i (uint64_of_int64 x);; mret None
      | _ => unsupportedConversion val fieldType
      end
  | KFloat64 =>
      match val with
      | DFloat64 f => SetFloat i f;; mret None
      | _ => unsupportedConversion val fieldType
      end
  | KStruct =>
      if bool_decide (fieldType = typeTime) then
        (* fieldVal.Set(reflect.ValueOf(val)), whatever val holds *)
        match val with
        | DTime t => store i (VTime t);; mret None
        | _ => panic PanicSetNotAssignable
        end
      else unsupportedConversion val fieldType
  | KSlice =>
      if bool_decide (fieldType = typeStringArr) then
        match val with
        | DSlice s => store i (VStrings (map stringOrZero s));; mret None
        | _ => unsupportedConversion val fieldType
        end
      else unsupportedConversion val fieldType
  | _ => unsupportedConversion val fieldType
  end.

(** Which dynamic values the specification (section 4.4) lets into a
    field of type [t]. *)
Definition file_kind_matches (t : rtype) (val : dyn_t) : bool :=
  match rkind t, val with
  | KString, DString _ => true
  | KBool, DBool _ => true
  | KInt, DInt64 _ => true
  | KInt64, DInt64 _ => negb (bool_decide (t = typeDuration))
  | KInt64, DString _ => bool_decide (t = typeDuration)
  | KUint, DInt64 _ => true
  | KUint64, DInt64 _ => true
  | KFloat64, DFloat64 _ => true
  | KStruct, DTime _ => bool_decide (t = typeTime)
  | KSlice, DSlice _ => bool_decide (t = typeStringArr)
  | _, _ => false
  end.

(** *** Binder *)

Definition os_Getenv (i : nat) (name : gostring) : act gostring :=
  emit (EvGetenv i name);; mret (Getenv name).

Definition strings_ToUpper (s : gostring) : gostring := map ToUpper s.

(** [intf, ok := config[key]]; reading the nil map finds nothing. *)
Definition config_get (i : nat) (config : config_t) (key : gostring)
    : act (option dyn_t) :=
  emit (EvConfig i key);; mret (config ≫= (.!! key)).

(** The name looked up in the environment, before upper-casing. *)
Definition envKeyOf (envPrefix key : gostring) : gostring :=
  if negb (length envPrefix =? 0)%nat
  then envPrefix ++ str "_" ++ key            (* fmt.Sprintf("%s_%s", ..) *)
  else key.

(** The body of the loop of [bind] for field [i]: [Some err] is
    [return err], [None] goes on with the next field. *)
Definition bind_body (envPrefix : gostring) (config : config_t)
    (i : nat) (f : StructField) : act (option error_t) :=
  let key := getKeyName f in
  if (length key =? 0)%nat then mret None
  else
    envVal ← os_Getenv i (strings_ToUpper (envKeyOf envPrefix key));
    if negb (length envVal =? 0)%nat then
      err ← assignFromEnv envVal (Type_ f) i;
      mret (ErrAssignKey key <$> err)
    else
      found ← config_get i config key;
      match found with
      | Some intf =>
          err ← assignFromIntf intf (Type_ f) i;
          mret (ErrAssignKey key <$> err)
      | None => mret None
      end.

Fixpoint bind_from (envPrefix : gostring) (config : config_t)
    (i : nat) (fs : list StructField) : act (option error_t) :=
  match fs with
  | [] => mret None
  | f :: rest =>
      err ← bind_body envPrefix config i f;
      match err with
      | Some e => mret (Some e)
      | None => bind_from envPrefix config (S i) rest
      end
  end.

Definition bind (envPrefix : gostring) (typ : ArgType) (config : config_t)
    : act (option error_t) :=
  bind_from envPrefix config 0 (Fields typ).

(** *** Loader *)

(** [x.(map[string]interface{})] on the interface value [x]. *)
Definition assertMap (x : option dyn_t) : Result config_t :=
  match x with
  | Some (DMap mp) => Ok mp
  | _ => Panic PanicInterfaceConversion
  end.

(** The mapping [m] that [Load] hands to [bind]. *)
Definition envLevelOf (i : option dyn_t) (env : gostring) : Result config_t :=
  match i with
  | None => Ok None
  | Some _ =>
      match assertMap i with
      | Ok None => Ok None
      | Ok (Some topLevel) => assertMap (topLevel !! env)
      | Panic p => Panic p
      end
  end.

Definition decodeFile (file : gostring) : act (option dyn_t * option ExtError) :=
  emit (EvDecodeFile file);; mret (testHarnessDecodeFile file).

(** [err != nil && !os.IsNotExist(err)] *)
Definition fatal (err : option ExtError) : bool :=
  match err with
  | Some e => negb (IsNotExist e)
  | None => false
  end.

(** [c] is [None] for the nil interface, else its dynamic type; the
    record behind the pointer is the [fields] of the world. *)
Definition Load (c : option ArgType) (file envPrefix env : gostring)
    : act (option error_t) :=
  match c with
  | None => panic PanicNilType
  | Some typ =>
      if negb (bool_decide (Kind typ = KPtr))
      then mret (Some (ErrNotStructPtr (TypeString typ)))
      else
        let typ := Elem typ in
        if negb (bool_decide (Kind typ = KStruct))
        then mret (Some (ErrNotStructPtr (TypeString typ)))
        else
          '(i, err) ← decodeFile file;
          if fatal err then mret (ErrExt <$> err)
          else
            mp ← lift (envLevelOf i env);
            bind envPrefix typ mp
  end.

(** *** The binder, as the specification describes it *)

(** The upper-cased name [bind] looks up in the environment for [f]. *)
Definition envName (envPrefix : gostring) (f : StructField) : gostring :=
  strings_ToUpper (envKeyOf envPrefix (getKeyName f)).

(** The world once both sources have been asked for field [i]. *)
Definition asked (envPrefix : gostring) (i : nat) (f : StructField)
    (w : world_t) : world_t :=
  noted (EvConfig i (getKeyName f)) (noted (EvGetenv i (envName envPrefix f)) w).

(** A field neither source has a value for. *)
Definition unset (envPrefix : gostring) (config : config_t) (f : StructField) : Prop :=
  Getenv (envName envPrefix f) = [] /\ config ≫= (.!! getKeyName f) = None.


(** The file value parser as a function from the dynamic value to a
    value, an error or a panic: what [assignFromIntf] stores or returns. *)
Definition fileValue (val : dyn_t) (fieldType : rtype) : Result (error_t + value_t) :=
  let unsupported : Result (error_t + value_t) :=
    Ok (inl (ErrUnsupportedConversion (rname fieldType) (dynTypeString val))) in
  match rkind fieldType with
  | KString => match val with DString s => Ok (inr (VString s)) | _ => unsupported end
  | KBool => match val with DBool b => Ok (inr (VBool b)) | _ => unsupported end
  | KInt =>
      match val with
      | DInt64 x =>
          match int64ToInt x with
          | inl err => Ok (inl err)
          | inr _ => Ok (inr (VInt (int_of_int64 x)))
          end
      | _ => unsupported
      end
  | KInt64 =>
      if bool_decide (fieldType = typeDuration) then
        match val with
        | DString s =>
            match ParseDuration s with
            | inl err => Ok (inl (ErrExt err))
            | inr d => Ok (inr (VInt d))
            end
        | _ => unsupported
        end
      else
        match val with
        | DInt64 x =>
            match int64ToInt x with
            | inl err => Ok (inl err)
            | inr _ => Ok (inr (VInt x))
            end
        | _ => unsupported
        end
  | KUint =>
      match val with
      | DInt64 x =>
          match uint64ToUint (uint64_of_int64 x) with
          | inl err => Ok (inl err)
          | inr _ => Ok (inr (VUint (uint_of_uint64 (uint64_of_int64 x))))
          end
      | _ => unsupported
      end
  | KUint64 =>
      match val with
      | DInt64 x => Ok (inr (VUint (uint64_of_int64 x)))
      | _ => unsupported
      end
  | KFloat64 => match val with DFloat64 f => Ok (inr (VFloat64 f)) | _ => unsupported end
  | KStruct =>
      if bool_decide (fieldType = typeTime) then
        match val with
        | DTime t => Ok (inr (VTime t))
        | _ => Panic PanicSetNotAssignable
        end
      else unsupported
  | KSlice =>
      if bool_decide (fieldType = typeStringArr) then
        match val with
        | DSlice s => Ok (inr (VStrings (map stringOrZero s)))
        | _ => unsupported
        end
      else unsupported
  | _ => unsupported
  end.

(** The stores in a trace, and those to field [j]. *)
Definition is_store (e : Event Float64 Time) : bool :=
  match e with
  | EvSet _ _ => true
  | _ => false
  end.

Definition is_store_to (j : nat) (e : Event Float64 Time) : bool :=
  match e with
  | EvSet k _ => bool_decide (k = j)
  | _ => false
  end.

Definition stores_to (j : nat) (l : list (Event Float64 Time)) : nat :=
  length (filter (fun e => is_store_to j e = true) l).

(** The field index of a call, the decoder call counting as before all
    fields. *)
Definition event_index (e : Event Float64 Time) : nat :=
  match e with
  | EvDecodeFile _ => 0
  | EvGetenv i _ | EvConfig i _ | EvSet i _ => i
  end.

(** Calls listed newest first are in declaration order when the field
    index never grows along the list. *)
Definition in_field_order (l : list (Event Float64 Time)) : Prop :=
  StronglySorted (fun e1 e2 => (event_index e2 <= event_index e1)%nat) l.

End Shift.

(** ** Sample collaborators

    Closed instances on which the definitions run: case tables that agree
    with Go's on ASCII and on U+211D (DOUBLE-STRUCK CAPITAL R: category Lu,
    no lower-case mapping), and two platforms, one per width of [int]. *)

Definition sample_IsUpper (r : rune) : bool := ascii_IsUpper r || (r =? 8477).

Lemma sample_IsUpper_ascii (r : rune) :
  0 <= r <= 127 -> sample_IsUpper r = ascii_IsUpper r.
Proof.
  intros Hr. unfold sample_IsUpper.
  replace (r =? 8477) with false by lia. apply orb_false_r.
Qed.

Definition sample_tables : CaseTables :=
  {| IsUpper := sample_IsUpper; ToLower := ascii_ToLower; ToUpper := ascii_ToUpper;
     IsUpper_ascii := sample_IsUpper_ascii;
     ToLower_ascii := fun _ _ => eq_refl |}.

(** Decimal text, as far as the samples need it. *)
Fixpoint digits_value (acc : Z) (s : gostring) : option Z :=
  match s with
  | [] => Some acc
  | d :: rest =>
      if (48 <=? d) && (d <=? 57) then digits_value (10 * acc + (d - 48)) rest
      else None
  end.

Definition sample_ParseUint (s : gostring) (bits : Z) : gostring + Z :=
  match s, digits_value 0 s with
  | _ :: _, Some n =>
      if n <? 2 ^ bits then inr n else inl (str "value out of range")
  | _, _ => inl (str "invalid syntax")
  end.

Definition sample_ParseInt (s : gostring) (bits : Z) : gostring + Z :=
  let '(neg, body) := match s with
                      | 45 :: rest => (true, rest)
                      | _ => (false, s)
                      end in
  match body, digits_value 0 body with
  | _ :: _, Some n =>
      let v := if neg : bool then - n else n in
      if (- 2 ^ (bits - 1) <=? v) && (v <? 2 ^ (bits - 1)) then inr v
      else inl (str "value out of range")
  | _, _ => inl (str "invalid syntax")
  end.

Definition no_such_file : gostring := str "no such file or directory".

(** A platform with [int] of [size] bytes, the environment [env] and a
    decoder that answers every path with the error or the value [decoded].
    Floats and times stand as integers; the sample has no parser for
    them. *)
Definition sample_decode (decoded : gostring + Dyn Z Z)
    : option (Dyn Z Z) * option gostring :=
  match decoded with
  | inl e => (None, Some e)
  | inr d => (Some d, None)
  end.

Lemma sample_decode_missing (decoded : gostring + Dyn Z Z) i e :
  sample_decode decoded = (i, Some e) -> i = None.
Proof. destruct decoded; cbn; congruence. Qed.

Definition sample_platform (size : Z) (env : gmap gostring gostring)
    (decoded : gostring + Dyn Z Z) : Platform :=
  {| Float64 := Z; Time := Z; ExtError := gostring;
     sizeOfInt := size;
     ParseInt := sample_ParseInt;
     ParseUint := sample_ParseUint;
     ParseFloat := fun _ => inl (str "invalid syntax");
     ParseDuration := fun _ => inl (str "invalid duration");
     ParseRFC3339 := fun _ => inl (str "cannot parse");
     IsNotExist := fun e => bool_decide (e = no_such_file);
     Getenv := fun name => default [] (env !! name);
     testHarnessDecodeFile := fun _ => sample_decode decoded;
     decode_missing_file := fun _ i e H _ => sample_decode_missing decoded i e H |}.

Definition sample32 : Platform := sample_platform 4 ∅ (inl no_such_file).
Definition sample64 : Platform := sample_platform 8 ∅ (inl no_such_file).

(** A record, an environment and two files to run the loader on. *)
Definition sample_fields : list StructField :=
  [ mkField (str "Port") [] (mkType KInt (str "int"));
    mkField (str "Secret") (str "-") (mkType KString (str "string"));
    mkField (str "LogJSON") [] (mkType KBool (str "bool")) ].

Definition sample_record : ArgType := TyPtr (TyStruct (str "main.Config") sample_fields).

Definition sample_env : gmap gostring gostring := {[ str "PORT" := str "8080" ]}.

Definition sample_dev : gmap gostring (Dyn Z Z) := {[ str "port" := DInt64 1 ]}.

(** A file with the section [dev], and one with the section [prod] only. *)
Definition sample_file : Dyn Z Z := DMap (Some {[ str "dev" := DMap (Some sample_dev) ]}).
Definition sample_file_prod : Dyn Z Z := DMap (Some {[ str "prod" := DMap (Some sample_dev) ]}).

Definition sample_world : World Z Z :=
  mkWorld [VInt 0; VString (str "s3cr3t"); VBool true] [].

Definition with_file : Platform := sample_platform 8 sample_env (inr sample_file).
Definition with_prod_file : Platform := sample_platform 8 sample_env (inr sample_file_prod).

(** The fixture of [TestLoadTwo]: the tags of [testStructTwo] are [toml]
    tags, so every key is derived from the field name. *)
Definition testStructTwo : list StructField :=
  [ mkField (str "TLSBind") [] (mkType KString (str "string"));
    mkField (str "AssetsNoCompress") [] (mkType KBool (str "bool"));
    mkField (str "LogJSONTwo") [] (mkType KBool (str "bool"));
    mkField (str "Bind") [] (mkType KString (str "string"));
    mkField (str "LogJSON") [] (mkType KBool (str "bool"));
    mkField (str "AssetsNoHash") [] (mkType KBool (str "bool"));
    mkField (str "TestVAR") [] (mkType KBool (str "bool")) ].

Definition testTomlTwo : Dyn Z Z :=
  DMap (Some {[ str "dev" := DMap (Some {[ str "bind" := DString (str ":3999");
                                           str "log_json" := DBool true;
                                           str "assets_no_hash" := DBool true ]});
                str "prod" := DMap (Some ∅) ]}).

Definition testEnvTwo : gmap gostring gostring :=
  {[ str "TLS_BIND" := str ":4000";
     str "ASSETS_NO_COMPRESS" := str "true";
     str "LOG_JSON_TWO" := str "true" ]}.

Definition testPlatformTwo : Platform := sample_platform 8 testEnvTwo (inr testTomlTwo).

(** [got := testStructTwo{TestVAR: true}] *)
Definition testGotTwo : World Z Z :=
  mkWorld [VString []; VBool false; VBool false; VString []; VBool false;
           VBool false; VBool true] [].

(** A platform with a file and no environment, and one whose environment
    value for [Port] is not a number. *)
Definition file_only : Platform := sample_platform 8 ∅ (inr sample_file).

Definition bad_port : Platform :=
  sample_platform 8 {[ str "PORT" := str "eighty" ]} (inl no_such_file).

Definition int64_type : rtype := mkType KInt64 (str "int64").

(** The run of [Load] on the sample record with both sources. *)
Abbreviation sample_run :=
  (@Load sample_tables with_file (Some sample_record) (str "config.toml") []
     (str "dev") sample_world).

(** * Properties *)

(** ** Key derivation *)

Section KeyResolverFacts.
Context {U : CaseTables}.

(** Invariant of the loop of [toCamel] after [n] iterations. *)
Lemma toCamel_loop_inv (r : list rune) (n : nat) :
  (n <= length r)%nat ->
  fold_left (toCamel_body r (length r)) (seq 0 n) ([], false)
  = (flat_map (camel_piece r) (seq 0 n),
     match n with O => false | S k => IsUpper (nth k r 0) end).
Proof.
  induction n as [|n IH]; intros Hn; [reflexivity|].
  rewrite seq_S, fold_left_app, IH by lia. cbn [fold_left Nat.add].
  rewrite flat_map_app. cbn [flat_map]. rewrite app_nil_r.
  unfold toCamel_body, camel_piece, underscore_before.
  destruct n as [|k].
  - cbn. rewrite andb_false_r. reflexivity.
  - replace (S k - 1)%nat with k by lia.
    replace (S k =? 0)%nat with false by reflexivity.
    cbn [negb andb].
    destruct (IsUpper (nth (S k) r 0)); cbn [andb]; [|reflexivity].
    destruct (IsUpper (nth k r 0)); cbn [negb orb]; [|by rewrite <- app_assoc].
    destruct ((S k + 1 <? length r)%nat && negb (IsUpper (nth (S k + 1) r 0)));
      [by rewrite <- app_assoc | reflexivity].
Qed.

Lemma toCamel_eq_spec (s : gostring) : toCamel s = toCamel_spec s.
Proof.
  unfold toCamel, toCamel_spec. by rewrite toCamel_loop_inv.
Qed.

Lemma flat_map_ext_in {A B} (f g : A -> list B) (l : list A) :
  (forall a, In a l -> f a = g a) -> flat_map f l = flat_map g l.
Proof.
  induction l as [|a l IH]; intros H; [reflexivity|].
  cbn. rewrite (H a) by (left; reflexivity).
  f_equal. apply IH. intros b Hb. apply H. by right.
Qed.

Lemma flat_map_nth_seq (pre s : list rune) :
  flat_map (fun i => [nth i (pre ++ s) 0]) (seq (length pre) (length s)) = s.
Proof.
  revert pre. induction s as [|a s IH]; intros pre; [reflexivity|].
  cbn [length seq flat_map app]. rewrite nth_middle. f_equal.
  specialize (IH (pre ++ [a])).
  rewrite <- app_assoc, length_app in IH. cbn in IH.
  by replace (length pre + 1)%nat with (S (length pre)) in IH by lia.
Qed.

Lemma caseless_underscore : caseless underscore.
Proof.
  split; [rewrite IsUpper_ascii | rewrite ToLower_ascii];
    unfold underscore; (lia || reflexivity).
Qed.

Lemma lowers_ascii (r : rune) : 0 <= r <= 127 -> lowers r.
Proof.
  intros Hr. unfold lowers, caseless.
  rewrite (ToLower_ascii r Hr).
  assert (Hl : 0 <= ascii_ToLower r <= 127).
  { unfold ascii_ToLower, ascii_IsUpper.
    destruct (Z.leb_spec 65 r), (Z.leb_spec r 90); cbn; lia. }
  rewrite (IsUpper_ascii _ Hl), (ToLower_ascii _ Hl).
  unfold ascii_ToLower, ascii_IsUpper.
  destruct (Z.leb_spec 65 r), (Z.leb_spec r 90); cbn;
    repeat match goal with
           | |- context [?a <=? ?b] => destruct (Z.leb_spec a b); cbn
           end; split; (reflexivity || lia).
Qed.

(** A string without upper-case runes that [ToLower] leaves alone comes
    back as it is. *)
Lemma toCamel_caseless (s : gostring) : Forall caseless s -> toCamel s = s.
Proof.
  intros Hs. rewrite toCamel_eq_spec. unfold toCamel_spec.
  etrans; [|apply (flat_map_nth_seq [] s)]. cbn [app length].
  apply flat_map_ext_in. intros i Hi. apply in_seq in Hi.
  assert (Hc : caseless (nth i s 0)).
  { rewrite Forall_forall in Hs. apply Hs, list_elem_of_In, nth_In. lia. }
  destruct Hc as [Hu Hl]. unfold camel_piece, underscore_before.
  by rewrite Hu, Hl.
Qed.

(** Every rune [toCamel] writes is an underscore or a lower-cased rune of
    its input. *)
Lemma toCamel_runes (s : gostring) (x : rune) :
  In x (toCamel s) -> x = underscore \/ exists r, In r s /\ x = ToLower r.
Proof.
  rewrite toCamel_eq_spec. unfold toCamel_spec. rewrite in_flat_map.
  intros (i & Hi & Hx). apply in_seq in Hi.
  apply in_app_or in Hx as [Hx|Hx].
  - destruct (underscore_before s i); cbn in Hx; intuition.
  - cbn in Hx. destruct Hx as [<-|[]]. right.
    exists (nth i s 0). split; [apply nth_In; lia | reflexivity].
Qed.

End KeyResolverFacts.

Lemma toCamel_ext (U V : CaseTables) (s : gostring) :
  Forall (fun r => @IsUpper U r = @IsUpper V r /\ @ToLower U r = @ToLower V r) s ->
  @toCamel U s = @toCamel V s.
Proof.
  intros Hs. rewrite Forall_forall in Hs.
  assert (Hup : forall i, @IsUpper U (nth i s 0) = @IsUpper V (nth i s 0)).
  { intros i. destruct (nth_in_or_default i s 0) as [Hin| ->].
    - apply Hs, list_elem_of_In, Hin.
    - rewrite !IsUpper_ascii by lia. reflexivity. }
  rewrite !toCamel_eq_spec. unfold toCamel_spec.
  apply flat_map_ext_in. intros i Hi. apply in_seq in Hi.
  unfold camel_piece, underscore_before. rewrite !Hup. do 2 f_equal.
  apply Hs, list_elem_of_In, nth_In. lia.
Qed.

Lemma toCamel_ascii (U : CaseTables) (s : gostring) :
  is_ascii s -> @toCamel U s = @toCamel sample_tables s.
Proof.
  intros Hs. apply toCamel_ext. eapply Forall_impl; [exact Hs|].
  cbn beta. intros r Hr. by rewrite !IsUpper_ascii, !ToLower_ascii.
Qed.

Lemma is_ascii_str (t : string) :
  forallb (fun r => (0 <=? r) && (r <=? 127)) (str t) = true -> is_ascii (str t).
Proof.
  intros H. apply Forall_forall. intros r Hr.
  rewrite forallb_forall in H. apply list_elem_of_In, H in Hr. lia.
Qed.

(** C1. [toCamel] lower-cases every rune and writes an underscore before an
    upper-case rune exactly when it is not the first rune and either the
    rune before it is not upper-case or a rune follows that is not
    upper-case; the four strings of [TestToCamel] come out as expected,
    whatever the case tables are outside ASCII. *)
Theorem toCamel_rule (U : CaseTables) :
  (forall s, toCamel s = toCamel_spec s) /\
  toCamel (str "oneTwo") = str "one_two" /\
  toCamel (str "OneTwo") = str "one_two" /\
  toCamel (str "OneTWOThree") = str "one_two_three" /\
  toCamel (str "ONETWOThree") = str "onetwo_three".
Proof.
  split; [apply toCamel_eq_spec|].
  repeat split; (rewrite toCamel_ascii; [reflexivity | by apply is_ascii_str]).
Qed.

(** A second pass finds only caseless runes when every rune of the input
    lowers to one. *)
Lemma toCamel_twice (U : CaseTables) (s : gostring) :
  Forall lowers s -> toCamel (toCamel s) = toCamel s.
Proof.
  intros Hs. apply toCamel_caseless, Forall_forall. intros x Hx.
  apply list_elem_of_In, toCamel_runes in Hx as [->|(r & Hr & ->)].
  - apply caseless_underscore.
  - rewrite Forall_forall in Hs. apply (Hs r), list_elem_of_In, Hr.
Qed.

(** Every ASCII string lowers to caseless runes. *)
Corollary toCamel_twice_ascii (U : CaseTables) (s : gostring) :
  is_ascii s -> toCamel (toCamel s) = toCamel s.
Proof.
  intros Hs. apply toCamel_twice.
  eapply Forall_impl; [exact Hs|]. apply lowers_ascii.
Qed.

(** C9, as the code has it.  Re-applying [toCamel] changes nothing for
    every string whose runes have a lower-case form that is neither
    upper-case nor moved by [ToLower]; and a string of caseless runes is
    returned unchanged. *)
Theorem toCamel_idempotent (U : CaseTables) (s : gostring)
    (Hs : Forall lowers s) :
  toCamel (toCamel s) = toCamel s /\ (Forall caseless s -> toCamel s = s).
Proof.
  split; [by apply toCamel_twice | apply toCamel_caseless].
Qed.

Lemma toCamel_idempotent_witness :
  @toCamel sample_tables (@toCamel sample_tables (str "oneTwo"))
  = @toCamel sample_tables (str "oneTwo").
Proof.
  refine (proj1 (toCamel_idempotent sample_tables (str "oneTwo") _)).
  repeat constructor.
Defined.

(** C9 as stated fails on an upper-case rune without a lower-case form:
    the field name [Xℝ] gives [xℝ], which gives [x_ℝ]. *)
Lemma toCamel_not_idempotent :
  @toCamel sample_tables (@toCamel sample_tables [88; 8477])
  <> @toCamel sample_tables [88; 8477].
Proof. vm_compute. discriminate. Qed.

(** The same for any case tables in which some rune outside ASCII is
    upper-case and its own lower-case form. *)
Lemma toCamel_not_idempotent_gen (U : CaseTables) (r : rune) :
  127 < r -> IsUpper r = true -> ToLower r = r ->
  toCamel (toCamel [88; r]) <> toCamel [88; r].
Proof.
  intros Hr Hu Hl.
  assert (H1 : toCamel [88; r] = [120; r]).
  { rewrite toCamel_eq_spec. unfold toCamel_spec, camel_piece, underscore_before. cbn.
    rewrite Hu, Hl, !IsUpper_ascii, !ToLower_ascii by lia. reflexivity. }
  assert (H2 : toCamel [120; r] = [120; 95; r]).
  { rewrite toCamel_eq_spec. unfold toCamel_spec, camel_piece, underscore_before. cbn.
    rewrite Hu, Hl, !IsUpper_ascii, !ToLower_ascii by lia. reflexivity. }
  rewrite H1, H2. discriminate.
Qed.

(** ** Numeric bounds converter *)

Lemma wrap_signed_id (bits x : Z) :
  0 < bits -> - 2 ^ (bits - 1) <= x < 2 ^ (bits - 1) -> wrap_signed bits x = x.
Proof.
  intros Hb Hx. unfold wrap_signed.
  assert (H2 : 2 ^ bits = 2 * 2 ^ (bits - 1)).
  { rewrite <- Z.pow_succ_r by lia. f_equal. lia. }
  rewrite Z.mod_small by lia. lia.
Qed.

Lemma wrap_unsigned_id (bits x : Z) :
  0 <= x < 2 ^ bits -> wrap_unsigned bits x = x.
Proof. intros Hx. unfold wrap_unsigned. by apply Z.mod_small. Qed.

Section BoundsFacts.
Context {U : CaseTables} {P : Platform}.

Lemma int64ToInt_64 (i : Z) :
  sizeOfInt = 8 -> int64_range i -> int64ToInt i = inr i.
Proof.
  intros H8 Hi. unfold int64ToInt, int_of_int64. rewrite H8. cbn.
  f_equal. apply wrap_signed_id; [lia|exact Hi].
Qed.

Lemma uint64ToUint_64 (u : Z) :
  sizeOfInt = 8 -> uint64_range u -> uint64ToUint u = inr u.
Proof.
  intros H8 Hu. unfold uint64ToUint, uint_of_uint64. rewrite H8. cbn.
  f_equal. apply wrap_unsigned_id. exact Hu.
Qed.

Lemma int64ToInt_32 (i : Z) :
  sizeOfInt = 4 ->
  int64ToInt i =
    if (MinInt32 <=? i) && (i <=? MaxInt32) then inr i
    else inl (if i >? MaxInt32 then ErrIntegerTooBig i else ErrIntegerTooSmall i).
Proof.
  intros H4. unfold int64ToInt, int_of_int64, MinInt32, MaxInt32. rewrite H4. cbn.
  destruct (Z.gtb_spec i 2147483647), (Z.ltb_spec i (-2147483648)),
    (Z.leb_spec (-2147483648) i), (Z.leb_spec i 2147483647);
    cbn; try lia; try reflexivity.
  f_equal. apply wrap_signed_id; cbn; lia.
Qed.

Lemma uint64ToUint_32 (u : Z) :
  sizeOfInt = 4 -> 0 <= u ->
  uint64ToUint u = if u <=? MaxUint32 then inr u else inl (ErrUnsignedTooBig u).
Proof.
  intros H4 Hu. unfold uint64ToUint, uint_of_uint64, MaxUint32. rewrite H4. cbn.
  destruct (Z.gtb_spec u 4294967295), (Z.leb_spec u 4294967295);
    try lia; try reflexivity.
  f_equal. apply wrap_unsigned_id; cbn; lia.
Qed.

End BoundsFacts.

(** C8. On a 64-bit [int] both narrowings return their input; on a 32-bit
    [int] they fail exactly outside the 32-bit signed (unsigned) range and
    return the input inside it.  So [2^31] is rejected there and [23] is
    returned as [23]. *)
Theorem narrowing_bounds (P : Platform) (i u : Z)
    (Hi : int64_range i) (Hu : uint64_range u) :
  (sizeOfInt = 8 -> int64ToInt i = inr i /\ uint64ToUint u = inr u) /\
  (sizeOfInt = 4 ->
     int64ToInt i =
       (if (MinInt32 <=? i) && (i <=? MaxInt32) then inr i
        else inl (if i >? MaxInt32 then ErrIntegerTooBig i else ErrIntegerTooSmall i)) /\
     uint64ToUint u =
       (if u <=? MaxUint32 then inr u else inl (ErrUnsignedTooBig u)) /\
     int64ToInt (2 ^ 31) = inl (ErrIntegerTooBig (2 ^ 31))) /\
  (sizeOfInt = 4 \/ sizeOfInt = 8 -> int64ToInt 23 = inr 23).
Proof.
  split; [|split].
  - intros H8. split; [by apply int64ToInt_64 | by apply uint64ToUint_64].
  - intros H4. split; [by apply int64ToInt_32|].
    split; [apply uint64ToUint_32; [done | apply Hu]|].
    by rewrite int64ToInt_32.
  - intros [H4|H8].
    + by rewrite int64ToInt_32.
    + apply int64ToInt_64; [done | unfold int64_range; lia].
Qed.

Lemma narrowing_bounds_witness :
  @int64ToInt sample32 (2 ^ 31) = inl (ErrIntegerTooBig (2 ^ 31)).
Proof.
  refine (proj2 (proj2 (proj1 (proj2 (narrowing_bounds sample32 (2 ^ 31) 23 _ _)) _))).
  - unfold int64_range; lia.
  - unfold uint64_range; lia.
  - reflexivity.
Defined.

(** ** Value parser, decoded-file source *)

Section FileParserFacts.
Context {U : CaseTables} {P : Platform}.

Lemma uint64_of_int64_negative (v : Z) :
  - 2 ^ 63 <= v < 0 -> uint64_of_int64 v = v + 2 ^ 64.
Proof.
  intros Hv. unfold uint64_of_int64, wrap_unsigned.
  rewrite <- (Z.mod_add v 1 (2 ^ 64)) by lia.
  rewrite Z.mod_small; lia.
Qed.


End FileParserFacts.


Section EnvParserFacts.
Context {U : CaseTables} {P : Platform}.

(** [assignFromEnv] parses, and stores what it parsed or returns the
    error with the record as it was; it never panics. *)
Lemma assignFromEnv_parseEnv (envVal : gostring) (t : rtype) (i : nat) (w : world_t) :
  assignFromEnv envVal t i w
  = match parseEnv envVal t with
    | inl err => (Ok (Some err), w)
    | inr v => (Ok None, stored i v w)
    end.
Proof.
  unfold assignFromEnv, parseEnv.
  destruct (rkind t) eqn:Hk; try reflexivity.
  - repeat case_bool_decide; subst; try discriminate; reflexivity.
  - destruct (ParseInt _ _); reflexivity.
  - case_bool_decide; [destruct (ParseDuration _) | destruct (ParseInt _ _)];
      reflexivity.
  - destruct (ParseUint _ _); reflexivity.
  - destruct (ParseUint _ _); reflexivity.
  - destruct (ParseFloat _); reflexivity.
  - case_bool_decide; [destruct (ParseRFC3339 _)|]; reflexivity.
Qed.

End EnvParserFacts.

(** ** Binder *)

Section BinderFacts.
Context {U : CaseTables} {P : Platform}.

Lemma length_eqb_0 {A} (l : list A) : (length l =? 0)%nat = bool_decide (l = []).
Proof. by destruct l. Qed.

Lemma run_bind {A B} (mx : act A) (k : A -> act B) (w : world_t) :
  (mx ≫= k) w
  = match mx w with
    | (Ok a, w') => k a w'
    | (Panic p, w') => (Panic p, w')
    end.
Proof. reflexivity. Qed.

Lemma run_ret {A} (a : A) (w : world_t) : (mret a : act A) w = (Ok a, w).
Proof. reflexivity. Qed.

Lemma run_Getenv (i : nat) (name : gostring) (w : world_t) :
  os_Getenv i name w = (Ok (Getenv name), noted (EvGetenv i name) w).
Proof. reflexivity. Qed.

Lemma run_config_get (i : nat) (config : config_t) (key : gostring) (w : world_t) :
  config_get i config key w = (Ok (config ≫= (.!! key)), noted (EvConfig i key) w).
Proof. reflexivity. Qed.

Lemma run_decodeFile (file : gostring) (w : world_t) :
  decodeFile file w = (Ok (testHarnessDecodeFile file), noted (EvDecodeFile file) w).
Proof. reflexivity. Qed.

Lemma bind_body_env (envPrefix : gostring) (config : config_t) (i : nat)
    (f : StructField) (w : world_t) :
  getKeyName f <> [] -> Getenv (envName envPrefix f) <> [] ->
  bind_body envPrefix config i f w
  = match parseEnv (Getenv (envName envPrefix f)) (Type_ f) with
    | inr v => (Ok None, stored i v (noted (EvGetenv i (envName envPrefix f)) w))
    | inl err => (Ok (Some (ErrAssignKey (getKeyName f) err)),
                  noted (EvGetenv i (envName envPrefix f)) w)
    end.
Proof.
  intros Hkey Henv. unfold bind_body. fold (envName envPrefix f).
  rewrite length_eqb_0, bool_decide_eq_false_2 by done.
  rewrite run_bind, run_Getenv.
  rewrite length_eqb_0, bool_decide_eq_false_2 by done. cbn [negb].
  rewrite run_bind, assignFromEnv_parseEnv.
  by destruct (parseEnv _ _).
Qed.

Lemma bind_body_omit (envPrefix : gostring) (config : config_t) (i : nat)
    (f : StructField) (w : world_t) :
  getKeyName f = [] -> bind_body envPrefix config i f w = (Ok None, w).
Proof. intros Hkey. unfold bind_body. by rewrite Hkey. Qed.

Lemma bind_body_file (envPrefix : gostring) (config : config_t) (i : nat)
    (f : StructField) (w : world_t) :
  getKeyName f <> [] -> Getenv (envName envPrefix f) = [] ->
  bind_body envPrefix config i f w
  = match config ≫= (.!! getKeyName f) with
    | Some intf =>
        match assignFromIntf intf (Type_ f) i (asked envPrefix i f w) with
        | (Ok err, w') => (Ok (ErrAssignKey (getKeyName f) <$> err), w')
        | (Panic p, w') => (Panic p, w')
        end
    | None => (Ok None, asked envPrefix i f w)
    end.
Proof.
  intros Hkey Henv. unfold bind_body. fold (envName envPrefix f).
  rewrite length_eqb_0, bool_decide_eq_false_2 by done.
  rewrite run_bind, run_Getenv, Henv. cbn [length Nat.eqb negb].
  rewrite run_bind, run_config_get. fold (asked envPrefix i f w).
  destruct (config ≫= _) as [intf|]; [|reflexivity].
  rewrite run_bind.
  by destruct (assignFromIntf _ _ _ _) as [[err|p] w'].
Qed.

(** [assignFromIntf] leaves the world as it is or stores one value at
    its field. *)
Lemma assignFromIntf_cases (val : dyn_t) (t : rtype) (i : nat) (w : world_t) :
  (exists r, assignFromIntf val t i w = (r, w)) \/
  (exists v, assignFromIntf val t i w = (Ok None, stored i v w)).
Proof.
  unfold assignFromIntf, unsupportedConversion.
  destruct (rkind t); destruct val;
    repeat first [case_bool_decide | case_match];
    first [ left; eexists; reflexivity | right; eexists; reflexivity ].
Qed.

(** *** What a call leaves alone *)

Lemma unseen_untouched j (w w' : world_t) : unseen j w w' -> untouched j w w'.
Proof. intros [Hf Ht]. split; [done|]. intros v Hv. by apply Ht. Qed.

Lemma unseen_refl j (w : world_t) : unseen j w w.
Proof. by split. Qed.

Lemma untouched_refl j (w : world_t) : untouched j w w.
Proof. by split. Qed.

Lemma unseen_trans j (w1 w2 w3 : world_t) : unseen j w1 w2 -> unseen j w2 w3 -> unseen j w1 w3.
Proof.
  intros [Hf1 Ht1] [Hf2 Ht2]. split; [congruence|].
  intros e He Hj. apply Ht1; [apply Ht2|]; done.
Qed.

Lemma untouched_trans j (w1 w2 w3 : world_t) :
  untouched j w1 w2 -> untouched j w2 w3 -> untouched j w1 w3.
Proof.
  intros [Hf1 Ht1] [Hf2 Ht2]. split; [congruence|].
  intros v Hv. by apply Ht1, Ht2.
Qed.

Lemma unseen_noted j e (w : world_t) : event_field e <> Some j -> unseen j w (noted e w).
Proof.
  intros He. split; [done|]. cbn. intros e' [->|H]%elem_of_cons Hj; done.
Qed.

Lemma untouched_noted j e (w : world_t) : (forall v, e <> EvSet j v) -> untouched j w (noted e w).
Proof.
  intros He. split; [done|]. cbn. intros v [H|H]%elem_of_cons; [|done].
  by destruct (He v).
Qed.

Lemma unseen_stored i j v (w : world_t) : j <> i -> unseen j w (stored i v w).
Proof.
  intros Hj. split; cbn.
  - by apply list_lookup_insert_ne.
  - intros e [->|H]%elem_of_cons He; [|done]. cbn in He. congruence.
Qed.

(** One iteration for field [i]: other fields are not involved; field [i]
    itself is not involved when its key is empty, and not stored to when
    the environment has no value and the mapping has no entry. *)
Lemma bind_body_frame (envPrefix : gostring) (config : config_t) (i : nat)
    (f : StructField) (w w' : world_t) (r : Result (option error_t)) (j : nat) :
  bind_body envPrefix config i f w = (r, w') ->
  (j <> i -> unseen j w w') /\
  (getKeyName f = [] -> unseen j w w') /\
  (Getenv (envName envPrefix f) = [] ->
   config ≫= (.!! getKeyName f) = None -> untouched j w w').
Proof.
  intros Hb.
  destruct (decide (getKeyName f = [])) as [Hkey|Hkey].
  { rewrite bind_body_omit in Hb by done. injection Hb as <- <-.
    split_and!; intros; (apply unseen_refl || apply untouched_refl). }
  destruct (decide (Getenv (envName envPrefix f) = [])) as [Henv|Henv].
  - rewrite bind_body_file in Hb by done.
    assert (Ha : forall k, untouched k w (asked envPrefix i f w)).
    { intros k. eapply untouched_trans; apply untouched_noted; done. }
    assert (Hu : j <> i -> unseen j w (asked envPrefix i f w)).
    { intros Hj. eapply unseen_trans; apply unseen_noted; cbn; congruence. }
    destruct (config ≫= _) as [intf|].
    + split_and!; [|done|done]. intros Hj.
      eapply unseen_trans; [by apply Hu|].
      destruct (assignFromIntf_cases intf (Type_ f) i (asked envPrefix i f w))
        as [[r' Hr]|[v Hv]].
      * rewrite Hr in Hb. destruct r'; injection Hb as <- <-; apply unseen_refl.
      * rewrite Hv in Hb. injection Hb as <- <-. by apply unseen_stored.
    + injection Hb as <- <-. split_and!; [done|done|]. intros _ _. apply Ha.
  - rewrite bind_body_env in Hb by done.
    split_and!; [|done|done]. intros Hj.
    destruct (parseEnv _ _); injection Hb as <- <-.
    + apply unseen_noted. cbn. congruence.
    + eapply unseen_trans; [apply unseen_noted | by apply unseen_stored].
      cbn. congruence.
Qed.

Lemma run_bind_from_cons (envPrefix : gostring) (config : config_t) (i : nat)
    (f : StructField) (rest : list StructField) (w : world_t) :
  bind_from envPrefix config i (f :: rest) w
  = match bind_body envPrefix config i f w with
    | (Ok (Some e), w1) => (Ok (Some e), w1)
    | (Ok None, w1) => bind_from envPrefix config (S i) rest w1
    | (Panic p, w1) => (Panic p, w1)
    end.
Proof.
  cbn [bind_from]. rewrite run_bind.
  by destruct (bind_body _ _ _ _ _) as [[[e|]|p] w1].
Qed.

Lemma bind_from_unseen (envPrefix : gostring) (config : config_t)
    (fs : list StructField) (i : nat) (w w' : world_t)
    (r : Result (option error_t)) (j : nat) :
  bind_from envPrefix config i fs w = (r, w') ->
  (forall f, (i <= j)%nat -> fs !! (j - i)%nat = Some f -> getKeyName f = []) ->
  unseen j w w'.
Proof.
  revert i w. induction fs as [|f rest IH]; intros i w Hb Hc.
  { injection Hb as <- <-. apply unseen_refl. }
  rewrite run_bind_from_cons in Hb.
  destruct (bind_body envPrefix config i f w) as [r1 w1] eqn:Hbody.
  destruct (bind_body_frame _ _ _ _ _ _ _ j Hbody) as (Hne & Hom & _).
  assert (H1 : unseen j w w1).
  { destruct (decide (j = i)) as [->|Hj]; [|by apply Hne].
    apply Hom, Hc; [lia|]. by rewrite Nat.sub_diag. }
  destruct r1 as [[e|]|p]; try (injection Hb as <- <-; exact H1).
  eapply unseen_trans; [exact H1|]. apply (IH (S i) w1 Hb).
  intros f' Hle Hlk. apply Hc; [lia|].
  by replace (j - i)%nat with (S (j - S i)) by lia.
Qed.

Lemma bind_from_untouched (envPrefix : gostring) (config : config_t)
    (fs : list StructField) (i : nat) (w w' : world_t)
    (r : Result (option error_t)) (j : nat) :
  bind_from envPrefix config i fs w = (r, w') ->
  (forall f, (i <= j)%nat -> fs !! (j - i)%nat = Some f ->
             getKeyName f = [] \/ unset envPrefix config f) ->
  untouched j w w'.
Proof.
  revert i w. induction fs as [|f rest IH]; intros i w Hb Hc.
  { injection Hb as <- <-. apply untouched_refl. }
  rewrite run_bind_from_cons in Hb.
  destruct (bind_body envPrefix config i f w) as [r1 w1] eqn:Hbody.
  destruct (bind_body_frame _ _ _ _ _ _ _ j Hbody) as (Hne & Hom & Hun).
  assert (H1 : untouched j w w1).
  { destruct (decide (j = i)) as [->|Hj]; [|by apply unseen_untouched, Hne].
    destruct (Hc f) as [Hk|[He Hl]]; [lia | by rewrite Nat.sub_diag | |].
    - by apply unseen_untouched, Hom.
    - by apply Hun. }
  destruct r1 as [[e|]|p]; try (injection Hb as <- <-; exact H1).
  eapply untouched_trans; [exact H1|]. apply (IH (S i) w1 Hb).
  intros f' Hle Hlk. apply Hc; [lia|].
  by replace (j - i)%nat with (S (j - S i)) by lia.
Qed.



(** *** Loader *)

Lemma run_Load_struct (name : gostring) (fs : list StructField)
    (file envPrefix env : gostring) (w : world_t) :
  Load (Some (TyPtr (TyStruct name fs))) file envPrefix env w
  = let w1 := noted (EvDecodeFile file) w in
    if fatal (testHarnessDecodeFile file).2
    then (Ok (ErrExt <$> (testHarnessDecodeFile file).2), w1)
    else match envLevelOf (testHarnessDecodeFile file).1 env with
         | Ok mp => bind_from envPrefix mp 0 fs w1
         | Panic p => (Panic p, w1)
         end.
Proof.
  unfold Load. cbn [Kind Elem negb bool_decide].
  rewrite !bool_decide_eq_true_2 by done. cbn [negb].
  rewrite run_bind, run_decodeFile.
  destruct (testHarnessDecodeFile file) as [i err]. cbn [fst snd].
  destruct (fatal err); [reflexivity|].
  rewrite run_bind. unfold lift.
  by destruct (envLevelOf i env).
Qed.



(** C10. After [Load] on a pointer to a record, a field with the omit
    tag (empty key) holds what it held and no call was made about it; a
    field for which the environment value is empty and the mapping of
    [Load] has no entry holds what it held and nothing was stored to
    it. *)
Theorem skipped_fields_kept (name : gostring) (fs : list StructField)
    (file envPrefix env : gostring) (w w' : world_t)
    (r : Result (option error_t)) (j : nat) (f : StructField)
    (HLoad : Load (Some (TyPtr (TyStruct name fs))) file envPrefix env w = (r, w'))
    (Hf : fs !! j = Some f) :
  (getKeyName f = [] -> unseen j w w') /\
  (Getenv (envName envPrefix f) = [] ->
   (forall mp, envLevelOf (testHarnessDecodeFile file).1 env = Ok mp ->
               mp ≫= (.!! getKeyName f) = None) ->
   untouched j w w').
Proof.
  rewrite run_Load_struct in HLoad. cbn zeta in HLoad.
  assert (Hd : unseen j w (noted (EvDecodeFile file) w)) by by apply unseen_noted.
  destruct (fatal _).
  { injection HLoad as <- <-. split; intros; [|apply unseen_untouched]; exact Hd. }
  destruct (envLevelOf _ env) as [mp|p].
  2:{ injection HLoad as <- <-. split; intros; [|apply unseen_untouched]; exact Hd. }
  split.
  - intros Hkey. eapply unseen_trans; [exact Hd|].
    apply (bind_from_unseen _ _ _ _ _ _ _ j HLoad).
    intros f' _. rewrite Nat.sub_0_r, Hf. by intros [= <-].
  - intros Henv Hmp. eapply untouched_trans; [by apply unseen_untouched|].
    apply (bind_from_untouched _ _ _ _ _ _ _ j HLoad).
    intros f' _. rewrite Nat.sub_0_r, Hf. intros [= <-]. right. split; [done|].
    by apply Hmp.
Qed.


End BinderFacts.

(** ** Closed runs *)


Lemma skipped_fields_kept_witness :
  unseen 1 sample_world
    (@Load sample_tables with_file (Some sample_record) (str "config.toml") []
       (str "dev") sample_world).2.
Proof.
  refine (proj1 (@skipped_fields_kept sample_tables with_file (str "main.Config")
            sample_fields (str "config.toml") [] (str "dev") sample_world _
            (@Load sample_tables with_file (Some sample_record) (str "config.toml") []
               (str "dev") sample_world).1
            1%nat _ _ _) _).
  - vm_compute. reflexivity.
  - reflexivity.
  - vm_compute. reflexivity.
Defined.


(** ** Where the code leaves the specification *)

Section Departures.
Context {U : CaseTables} {P : Platform}.

(** Away from [time.Time] fields a mismatch is the conversion error with
    both type names, and the record is as it was. *)
Lemma assignFromIntf_mismatch (val : dyn_t) (t : rtype) (i : nat) (w : world_t) :
  t <> typeTime -> file_kind_matches t val = false ->
  assignFromIntf val t i w
  = (Ok (Some (ErrUnsupportedConversion (rname t) (dynTypeString val))), w).
Proof.
  intros Ht. unfold file_kind_matches, assignFromIntf, unsupportedConversion.
  destruct (rkind t); destruct val;
    repeat case_bool_decide; try done; reflexivity.
Qed.

(** A [time.Time] field takes whatever the mapping holds; [reflect]
    panics unless it is a time. *)
Lemma assignFromIntf_time_unchecked (val : dyn_t) (i : nat) (w : world_t) :
  (forall t, val <> DTime t) ->
  assignFromIntf val typeTime i w = (Panic PanicSetNotAssignable, w).
Proof.
  intros Hval. unfold assignFromIntf. cbn.
  destruct val; try reflexivity. by destruct (Hval t).
Qed.

(** A decoded file without the section [env] makes [Load] panic in the
    type assertion on [topLevel[env]]. *)
Lemma Load_missing_section (name : gostring) (fs : list StructField)
    (file envPrefix env : gostring) (w : world_t)
    (topLevel : gmap gostring dyn_t) :
  testHarnessDecodeFile file = (Some (DMap (Some topLevel)), None) ->
  topLevel !! env = None ->
  Load (Some (TyPtr (TyStruct name fs))) file envPrefix env w
  = (Panic PanicInterfaceConversion, noted (EvDecodeFile file) w).
Proof.
  intros Hdec Henv. rewrite run_Load_struct, Hdec. cbn. by rewrite Henv.
Qed.

(** A non-nil argument that is not a pointer to a struct is refused with
    the name of the type found, before anything else is called. *)
Lemma Load_rejects (typ : ArgType) (file envPrefix env : gostring) (w : world_t) :
  ~ (Kind typ = KPtr /\ Kind (Elem typ) = KStruct) ->
  Load (Some typ) file envPrefix env w
  = (Ok (Some (ErrNotStructPtr
                 (TypeString (if bool_decide (Kind typ = KPtr) then Elem typ else typ)))),
     w).
Proof.
  intros Hn. unfold Load. case_bool_decide as Hp; [|reflexivity].
  cbn [negb]. case_bool_decide as Hs; [|reflexivity]. by destruct Hn.
Qed.

(** C4, the failing input: on the nil interface [reflect.TypeOf] is nil
    and [typ.Kind()] panics; no error is returned. *)
Theorem Load_nil_panics (file envPrefix env : gostring) (w : world_t) :
  Load None file envPrefix env w = (Panic PanicNilType, w).
Proof. reflexivity. Qed.

End Departures.

(** C3, the failing input: the file decodes, has the section [prod] and no
    section [dev]; [Load] for [dev] panics instead of going on with an
    empty mapping. *)
Theorem Load_missing_section_panics :
  @Load sample_tables with_prod_file (Some sample_record) (str "config.toml") []
    (str "dev") sample_world
  = (Panic PanicInterfaceConversion,
     mkWorld (fields sample_world) [EvDecodeFile (str "config.toml")]).
Proof. vm_compute. reflexivity. Qed.

(** C6, the failing input: a text value for a [time.Time] field is handed
    to [reflect.Value.Set] unchecked; the call panics instead of returning
    the conversion error. *)
Theorem assignFromIntf_time_text_panics :
  @assignFromIntf sample64 (DString (str "tomorrow")) typeTime 0%nat sample_world
  = (Panic PanicSetNotAssignable, sample_world).
Proof. reflexivity. Qed.

(** ** The tests of the repository, on the model *)

Example TestToCamel :
  map (@toCamel sample_tables)
    [str "oneTwo"; str "OneTwo"; str "OneTWOThree"; str "ONETWOThree";
     str "TestONE"; str "TestOneTWO"; str "TestO"; str "TestON"; str "TestOn";
     str "TEST"]
  = [str "one_two"; str "one_two"; str "one_two_three"; str "onetwo_three";
     str "test_one"; str "test_one_two"; str "test_o"; str "test_on"; str "test_on";
     str "test"].
Proof. vm_compute. reflexivity. Qed.

Example TestGetKeyName :
  map (@getKeyName sample_tables)
    [mkField (str "Int") [] (mkType KInt (str "int"));
     mkField (str "IDMonster") [] (mkType KInt (str "int"));
     mkField (str "String") (str "a") (mkType KString (str "string"));
     mkField (str "Uint") (str "-") (mkType KUint (str "uint"))]
  = [str "int"; str "id_monster"; str "a"; []].
Proof. vm_compute. reflexivity. Qed.

Example TestInt64ToInt :
  @int64ToInt sample64 23 = inr 23 /\ @int64ToInt sample32 23 = inr 23 /\
  @uint64ToUint sample64 23 = inr 23 /\ @uint64ToUint sample32 23 = inr 23.
Proof. repeat split. Qed.

Example TestLoadTwo :
  exists w',
    @Load sample_tables testPlatformTwo
      (Some (TyPtr (TyStruct (str "shift.testStructTwo") testStructTwo)))
      (str "file") [] (str "dev") testGotTwo = (Ok None, w') /\
    fields w' = [VString (str ":4000"); VBool true; VBool true;
                 VString (str ":3999"); VBool true; VBool true; VBool true].
Proof. eexists. split; vm_compute; reflexivity. Qed.

(** * Further properties of the code *)

(** ** Key derivation: size and shape of the key *)

Section KeyShape.
Context {U : CaseTables}.

Lemma camel_piece_first (s : gostring) : camel_piece s 0 = [ToLower (nth 0 s 0)].
Proof. unfold camel_piece, underscore_before. cbn. by rewrite andb_false_r. Qed.

Lemma camel_piece_length (s : gostring) (i : nat) :
  (1 <= length (camel_piece s i) <= 2)%nat.
Proof. unfold camel_piece. destruct (underscore_before s i); cbn; lia. Qed.

Lemma flat_map_length_between {A B} (f : A -> list B) (l : list A) :
  (forall a, 1 <= length (f a) <= 2)%nat ->
  (length l <= length (flat_map f l) <= 2 * length l)%nat.
Proof.
  intros Hf. induction l as [|a l IH]; cbn; [lia|].
  rewrite length_app. specialize (Hf a). lia.
Qed.

Lemma toCamel_length (s : gostring) :
  (length s <= length (toCamel s) <= 2 * length s - 1)%nat.
Proof.
  rewrite toCamel_eq_spec. unfold toCamel_spec.
  destruct s as [|r s]; [cbn; lia|].
  cbn [length seq flat_map]. rewrite camel_piece_first, length_app. cbn [length].
  pose proof (flat_map_length_between (camel_piece (r :: s)) (seq 1 (length s))
                (camel_piece_length (r :: s))) as H.
  rewrite length_seq in H. lia.
Qed.

Lemma flat_map_nth_seq_map (g : Z -> Z) (pre s : gostring) :
  flat_map (fun i => [g (nth i (pre ++ s) 0)]) (seq (length pre) (length s)) = map g s.
Proof.
  revert pre. induction s as [|a s IH]; intros pre; [reflexivity|].
  cbn [length seq flat_map app map]. rewrite nth_middle. f_equal.
  specialize (IH (pre ++ [a])).
  rewrite <- app_assoc, length_app in IH. cbn in IH.
  by replace (length pre + 1)%nat with (S (length pre)) in IH by lia.
Qed.

(** Where no position gets an underscore the key is the lower-cased name. *)
Lemma toCamel_plain (s : gostring) :
  (forall i, (i < length s)%nat -> underscore_before s i = false) ->
  toCamel s = map ToLower s.
Proof.
  intros Hs. rewrite toCamel_eq_spec. unfold toCamel_spec.
  etrans; [|apply (flat_map_nth_seq_map ToLower [] s)]. cbn [app length].
  apply flat_map_ext_in. intros i Hi. apply in_seq in Hi.
  unfold camel_piece. rewrite Hs by lia. reflexivity.
Qed.

(** X1. The key is at least as long as the field name and has fewer
    added underscores than the name has runes; it is empty only for the
    empty name. *)
Theorem toCamel_size (s : gostring) :
  (length s <= length (toCamel s) <= 2 * length s - 1)%nat /\
  (toCamel s = [] <-> s = []).
Proof.
  pose proof (toCamel_length s) as H. split; [exact H|].
  split; intros Hs.
  - rewrite Hs in H. cbn in H. destruct s; [done | cbn in H; lia].
  - by subst.
Qed.

(** X2. The first rune of the key is the lower-cased first rune of the
    name: no underscore is ever put in front. *)
Theorem toCamel_head (r : rune) (s : gostring) :
  head (toCamel (r :: s)) = Some (ToLower r).
Proof.
  rewrite toCamel_eq_spec. unfold toCamel_spec.
  cbn [length seq flat_map]. by rewrite camel_piece_first.
Qed.

(** X3. A name without upper-case runes, and a name of upper-case runes
    only (an acronym), get no underscore: the key is the name
    lower-cased. *)
Theorem toCamel_no_separator (s : gostring) :
  (Forall (fun r => IsUpper r = false) s -> toCamel s = map ToLower s) /\
  (Forall (fun r => IsUpper r = true) s -> toCamel s = map ToLower s).
Proof.
  split; intros Hs; apply toCamel_plain; intros i Hi;
    rewrite (Forall_nth _ 0) in Hs; unfold underscore_before.
  - by rewrite (Hs i Hi).
  - rewrite (Hs i Hi). destruct i as [|i]; [reflexivity|].
    replace (S i - 1)%nat with i by lia.
    rewrite (Hs i) by lia. cbn [negb andb orb].
    destruct (Nat.ltb_spec (S i + 1) (length s)) as [Hn|Hn]; [|reflexivity].
    by rewrite (Hs (S i + 1)%nat Hn).
Qed.

End KeyShape.

Lemma toCamel_no_separator_witness :
  @toCamel sample_tables (str "TEST") = str "test".
Proof.
  refine (eq_trans (proj2 (@toCamel_no_separator sample_tables (str "TEST")) _) _).
  - repeat constructor.
  - reflexivity.
Defined.

Section KeyBoundary.
Context {U : CaseTables}.

Lemma flat_map_seq_shift {B} (f : nat -> list B) (a k m : nat) :
  flat_map f (seq (a + k) m) = flat_map (fun j => f (a + j)%nat) (seq k m).
Proof.
  revert k. induction m as [|m IH]; intros k; [reflexivity|].
  cbn [seq flat_map]. f_equal.
  replace (S (a + k)) with (a + S k)%nat by lia. apply IH.
Qed.

(** Left of a boundary the pieces are those of the left word alone. *)
Lemma camel_piece_app_l (s1 s2 : gostring) (i : nat) :
  IsUpper (nth (length s1 - 1) s1 0) = false ->
  (i < length s1)%nat ->
  camel_piece (s1 ++ s2) i = camel_piece s1 i.
Proof.
  intros Hlast Hi. unfold camel_piece, underscore_before.
  rewrite !(app_nth1 s1 s2 0 Hi).
  destruct (decide (i = length s1 - 1)%nat) as [->|Hne].
  { by rewrite Hlast. }
  rewrite (app_nth1 s1 s2 0 (n:=i - 1)) by lia.
  rewrite (app_nth1 s1 s2 0 (n:=i + 1)) by lia.
  rewrite length_app.
  replace (i + 1 <? length s1 + length s2)%nat with true
    by (symmetry; apply Nat.ltb_lt; lia).
  replace (i + 1 <? length s1)%nat with true
    by (symmetry; apply Nat.ltb_lt; lia).
  reflexivity.
Qed.

(** Right of it, past the first rune, they are those of the right word. *)
Lemma camel_piece_app_r (s1 s2 : gostring) (j : nat) :
  (1 <= j)%nat ->
  camel_piece (s1 ++ s2) (length s1 + j) = camel_piece s2 j.
Proof.
  intros Hj. unfold camel_piece, underscore_before.
  rewrite !(app_nth2 s1 s2 0 (n:=length s1 + j)) by lia.
  rewrite (app_nth2 s1 s2 0 (n:=length s1 + j - 1)) by lia.
  rewrite (app_nth2 s1 s2 0 (n:=length s1 + j + 1)) by lia.
  rewrite length_app.
  replace (length s1 + j - length s1)%nat with j by lia.
  replace (length s1 + j - 1 - length s1)%nat with (j - 1)%nat by lia.
  replace (length s1 + j + 1 - length s1)%nat with (j + 1)%nat by lia.
  replace (length s1 + j =? 0)%nat with (j =? 0)%nat
    by (destruct j; [lia|]; symmetry; apply Nat.eqb_neq; lia).
  replace (length s1 + j + 1 <? length s1 + length s2)%nat with (j + 1 <? length s2)%nat
    by (destruct (Nat.ltb_spec (j + 1) (length s2));
        symmetry; [apply Nat.ltb_lt | apply Nat.ltb_ge]; lia).
  reflexivity.
Qed.

(** X4. Where a name goes from a rune that is not upper-case to an
    upper-case rune, the key is the key of the left part, an underscore,
    and the key of the right part. *)
Theorem toCamel_word_boundary (s1 s2 : gostring) (r1 r2 : rune)
    (Hlast : last s1 = Some r1) (Hhead : head s2 = Some r2)
    (Hr1 : IsUpper r1 = false) (Hr2 : IsUpper r2 = true) :
  toCamel (s1 ++ s2) = toCamel s1 ++ underscore :: toCamel s2.
Proof.
  destruct s2 as [|x t2]; [discriminate|]. injection Hhead as ->.
  assert (Hn1 : (0 < length s1)%nat) by (destruct s1; [discriminate | cbn; lia]).
  assert (Hl : nth (length s1 - 1) s1 0 = r1).
  { rewrite last_lookup in Hlast. rewrite nth_lookup.
    replace (length s1 - 1)%nat with (pred (length s1)) by lia.
    by rewrite Hlast. }
  rewrite !toCamel_eq_spec. unfold toCamel_spec.
  rewrite length_app, seq_app, flat_map_app. f_equal.
  - apply flat_map_ext_in. intros i Hi. apply in_seq in Hi.
    apply camel_piece_app_l; [by rewrite Hl | lia].
  - cbn [length seq flat_map Nat.add]. rewrite camel_piece_first. cbn [nth app].
    replace (camel_piece (s1 ++ r2 :: t2) (length s1)) with [underscore; ToLower r2].
    2:{ unfold camel_piece, underscore_before.
        rewrite (app_nth2 s1 (r2 :: t2) 0 (n:=length s1)) by lia.
        rewrite (app_nth1 s1 (r2 :: t2) 0 (n:=length s1 - 1)) by lia.
        rewrite Nat.sub_diag, Hl. cbn [nth]. rewrite Hr1, Hr2.
        replace (length s1 =? 0)%nat with false
          by (symmetry; apply Nat.eqb_neq; lia).
        reflexivity. }
    cbn [app]. do 2 f_equal.
    replace (S (length s1)) with (length s1 + 1)%nat by lia.
    rewrite flat_map_seq_shift.
    apply flat_map_ext_in. intros j Hj. apply in_seq in Hj.
    apply camel_piece_app_r. lia.
Qed.

End KeyBoundary.

Lemma toCamel_word_boundary_witness :
  @toCamel sample_tables (str "Log" ++ str "JSON")
  = @toCamel sample_tables (str "Log") ++ underscore :: @toCamel sample_tables (str "JSON").
Proof.
  apply (@toCamel_word_boundary sample_tables (str "Log") (str "JSON") 103 74);
    reflexivity.
Defined.

(** ** Key resolver and bounds converter *)

Section ResolverFacts.
Context {U : CaseTables} {P : Platform}.

(** X5. A field is left out of binding exactly when its tag is ["-"]; a
    field without a tag always gets a key, unless its name were empty. *)
Theorem getKeyName_empty_iff (f : StructField) :
  getKeyName f = [] <-> Tag f = str "-" \/ (Tag f = [] /\ Name f = []).
Proof.
  unfold getKeyName. case_bool_decide as Hdash; [by split; [left|]|].
  rewrite length_eqb_0. case_bool_decide as Htag; cbn [negb].
  - pose proof (toCamel_length (Name f)) as Hlen. split.
    + intros Hk. rewrite Hk in Hlen. right. split; [done|].
      destruct (Name f); [done | cbn in Hlen; lia].
    + intros [?|[_ ->]]; done.
  - split; [done|]. intros [?|[? _]]; done.
Qed.



End ResolverFacts.


(** ** The two value parsers *)

Section ParserFacts.
Context {U : CaseTables} {P : Platform}.



(** X9. A field type without a parser in [assignFromEnv] (a slice such as
    [[]string], a struct other than [time.Time], any other kind) with an
    environment value set is an error naming the type; nothing is
    written. *)
Theorem assignFromEnv_unsupported (envVal : gostring) (t : rtype) (i : nat)
    (w : world_t) (Ht : env_parses t = false) :
  assignFromEnv envVal t i w = (Ok (Some (ErrUnsupportedStruct (rname t))), w).
Proof.
  unfold env_parses in Ht. unfold assignFromEnv.
  destruct (rkind t); try discriminate; try reflexivity.
  by rewrite Ht.
Qed.

(** X10. Text reaches a [string] field and a [time.Duration] field the
    same way from both sources: the environment text and the same text in
    the file give the same result and the same record. *)
Theorem text_sources_agree (text : gostring) (t : rtype) (i : nat) (w : world_t)
    (Ht : rkind t = KString \/ t = typeDuration) :
  assignFromEnv text t i w = assignFromIntf (DString text) t i w.
Proof.
  destruct Ht as [Hk| ->]; unfold assignFromEnv, assignFromIntf.
  - by rewrite Hk.
  - cbn. by destruct (ParseDuration text).
Qed.



(** X13. When [assignFromIntf] does not return nil (an error, or a panic
    inside [reflect]) it has written nothing. *)
Theorem assignFromIntf_failure (val : dyn_t) (t : rtype) (i : nat) (w w' : world_t)
    (r : Result (option error_t))
    (Hrun : assignFromIntf val t i w = (r, w')) (Hr : r <> Ok None) :
  w' = w.
Proof.
  destruct (assignFromIntf_cases val t i w) as [[r' H]|[v H]];
    rewrite H in Hrun; congruence.
Qed.

End ParserFacts.

(** ** Binder and loader: errors, fall-back and order *)

Section BinderMore.
Context {U : CaseTables} {P : Platform}.

(** [assignFromIntf] stores what [fileValue] gives, or returns its error
    or panics with the world as it was. *)
Lemma assignFromIntf_fileValue (val : dyn_t) (t : rtype) (i : nat) (w : world_t) :
  assignFromIntf val t i w
  = match fileValue val t with
    | Ok (inl err) => (Ok (Some err), w)
    | Ok (inr v) => (Ok None, stored i v w)
    | Panic p => (Panic p, w)
    end.
Proof.
  unfold assignFromIntf, fileValue, unsupportedConversion.
  destruct (rkind t) eqn:Hk; destruct val;
    repeat first [case_bool_decide | case_match]; simplify_eq; try reflexivity.
Qed.

Lemma bind_body_error (envPrefix : gostring) (config : config_t) (i : nat)
    (f : StructField) (w w' : world_t) (e : error_t) :
  bind_body envPrefix config i f w = (Ok (Some e), w') ->
  exists cause, e = ErrAssignKey (getKeyName f) cause.
Proof.
  intros Hb.
  destruct (decide (getKeyName f = [])) as [Hkey|Hkey].
  { by rewrite bind_body_omit in Hb. }
  destruct (decide (Getenv (envName envPrefix f) = [])) as [Henv|Henv].
  - rewrite bind_body_file in Hb by done.
    destruct (config ≫= _) as [intf|]; [|discriminate].
    destruct (assignFromIntf _ _ _ _) as [[[err|]|p] w1]; simplify_eq/=. eauto.
  - rewrite bind_body_env in Hb by done.
    destruct (parseEnv _ _); simplify_eq. eauto.
Qed.

Lemma bind_from_error (envPrefix : gostring) (config : config_t)
    (fs : list StructField) (i : nat) (w w' : world_t) (e : error_t) :
  bind_from envPrefix config i fs w = (Ok (Some e), w') ->
  exists key cause, e = ErrAssignKey key cause.
Proof.
  revert i w. induction fs as [|f rest IH]; intros i w Hrun; [discriminate|].
  rewrite run_bind_from_cons in Hrun.
  destruct (bind_body envPrefix config i f w) as [[[e1|]|p] w1] eqn:Hbody;
    [| |discriminate].
  - injection Hrun as <- <-.
    destruct (bind_body_error _ _ _ _ _ _ _ Hbody) as [cause ->]. eauto.
  - by apply (IH (S i) w1).
Qed.

(** X14. [bind] stops at the first field that fails: its error is the
    cause wrapped with the key of that field, and no later field has been
    looked up or written. *)
Theorem bind_first_error (envPrefix : gostring) (config : config_t)
    (fs : list StructField) (i : nat) (w w' : world_t) (e : error_t)
    (Hrun : bind_from envPrefix config i fs w = (Ok (Some e), w')) :
  exists k f cause,
    fs !! k = Some f /\ e = ErrAssignKey (getKeyName f) cause /\
    forall j, (i + k < j)%nat -> unseen j w w'.
Proof.
  revert i w Hrun. induction fs as [|f rest IH]; intros i w Hrun; [discriminate|].
  rewrite run_bind_from_cons in Hrun.
  destruct (bind_body envPrefix config i f w) as [[[e1|]|p] w1] eqn:Hbody;
    [| |discriminate].
  - injection Hrun as <- <-.
    destruct (bind_body_error _ _ _ _ _ _ _ Hbody) as [cause ->].
    exists 0%nat, f, cause. split_and!; [done|done|].
    intros j Hj. apply (proj1 (bind_body_frame _ _ _ _ _ _ _ j Hbody)). lia.
  - destruct (IH (S i) w1 Hrun) as (k & g & cause & Hk & -> & Hun).
    exists (S k), g, cause. split_and!; [done|done|].
    intros j Hj. eapply unseen_trans.
    + apply (proj1 (bind_body_frame _ _ _ _ _ _ _ j Hbody)). lia.
    + apply Hun. lia.
Qed.

Lemma run_Load_ptr (typ : ArgType) (file envPrefix env : gostring) (w : world_t) :
  Kind typ = KPtr -> Kind (Elem typ) = KStruct ->
  Load (Some typ) file envPrefix env w
  = let w1 := noted (EvDecodeFile file) w in
    if fatal (testHarnessDecodeFile file).2
    then (Ok (ErrExt <$> (testHarnessDecodeFile file).2), w1)
    else match envLevelOf (testHarnessDecodeFile file).1 env with
         | Ok mp => bind_from envPrefix mp 0 (Fields (Elem typ)) w1
         | Panic p => (Panic p, w1)
         end.
Proof.
  intros Hp Hs. unfold Load.
  rewrite !bool_decide_eq_true_2 by done. cbn [negb].
  rewrite run_bind, run_decodeFile.
  destruct (testHarnessDecodeFile file) as [i err]. cbn [fst snd].
  destruct (fatal err); [reflexivity|].
  rewrite run_bind. unfold lift.
  by destruct (envLevelOf i env).
Qed.

Lemma Load_ptr_errors (typ : ArgType) (file envPrefix env : gostring)
    (w w' : world_t) (e : error_t) :
  Kind typ = KPtr -> Kind (Elem typ) = KStruct ->
  Load (Some typ) file envPrefix env w = (Ok (Some e), w') ->
  (exists x, e = ErrExt x /\ (testHarnessDecodeFile file).2 = Some x /\
             IsNotExist x = false) \/
  (exists key cause, e = ErrAssignKey key cause).
Proof.
  intros Hp Hs Hrun. rewrite run_Load_ptr in Hrun by done. cbn zeta in Hrun.
  destruct (testHarnessDecodeFile file) as [d [x|]]; cbn [fst snd fatal] in Hrun.
  - destruct (IsNotExist x) eqn:Hx; cbn [negb] in Hrun.
    + destruct (envLevelOf d env); [|discriminate].
      right. by eapply bind_from_error.
    + injection Hrun as <- <-. left. eauto.
  - destruct (envLevelOf d env); [|discriminate].
    right. by eapply bind_from_error.
Qed.

(** X15. The errors of [Load] are of three kinds: the argument is not a
    pointer to a struct (nothing was called), the decoder failed with an
    error other than a missing file (returned as it is), or a field could
    not be assigned (wrapped with its key). *)
Theorem Load_errors (c : option ArgType) (file envPrefix env : gostring)
    (w w' : world_t) (e : error_t)
    (Hrun : Load c file envPrefix env w = (Ok (Some e), w')) :
  (exists was, e = ErrNotStructPtr was /\ w' = w) \/
  (exists x, e = ErrExt x /\ (testHarnessDecodeFile file).2 = Some x /\
             IsNotExist x = false) \/
  (exists key cause, e = ErrAssignKey key cause).
Proof.
  destruct c as [typ|]; [|discriminate].
  destruct (decide (Kind typ = KPtr /\ Kind (Elem typ) = KStruct)) as [[Hp Hs]|Hn].
  - right. by eapply Load_ptr_errors.
  - rewrite Load_rejects in Hrun by done. injection Hrun as <- <-. left. eauto.
Qed.

(** X16. For a non-nil argument [Load] returns the schema error exactly
    when the argument is not a pointer to a struct; the error names the
    type found where the check failed (the argument's type, or the type
    pointed to) and nothing has been called or written. *)
Theorem Load_schema_error (typ : ArgType) (file envPrefix env : gostring) (w : world_t) :
  (~ (Kind typ = KPtr /\ Kind (Elem typ) = KStruct) ->
     Load (Some typ) file envPrefix env w
     = (Ok (Some (ErrNotStructPtr
                    (TypeString (if bool_decide (Kind typ = KPtr) then Elem typ else typ)))),
        w)) /\
  (Kind typ = KPtr /\ Kind (Elem typ) = KStruct ->
     forall was w', Load (Some typ) file envPrefix env w
                    <> (Ok (Some (ErrNotStructPtr was)), w')).
Proof.
  split; [apply Load_rejects|].
  intros [Hp Hs] was w' Hrun.
  by destruct (Load_ptr_errors _ _ _ _ _ _ _ Hp Hs Hrun) as [(x & ? & _)|(k & c & ?)].
Qed.

Lemma int64ToInt_error (x : Z) (e : error_t) :
  int64ToInt x = inl e -> e = ErrIntegerTooBig x \/ e = ErrIntegerTooSmall x.
Proof. unfold int64ToInt. repeat case_match; intros [=]; eauto. Qed.

Lemma uint64ToUint_error (x : Z) (e : error_t) :
  uint64ToUint x = inl e -> e = ErrUnsignedTooBig x.
Proof. unfold uint64ToUint. repeat case_match; intros [=]; eauto. Qed.

(** X17. For a field type other than [time.Time] the file parser returns
    the unsupported-conversion error exactly when the dynamic value is not
    of the kind the field takes. *)
Theorem conversion_error_iff (val : dyn_t) (t : rtype) (i : nat) (w : world_t)
    (Ht : t <> typeTime) :
  assignFromIntf val t i w
  = (Ok (Some (ErrUnsupportedConversion (rname t) (dynTypeString val))), w)
  <-> file_kind_matches t val = false.
Proof.
  split; [|by apply assignFromIntf_mismatch].
  rewrite assignFromIntf_fileValue.
  unfold fileValue, file_kind_matches.
  destruct (rkind t); destruct val;
    repeat first [case_bool_decide | case_match]; simplify_eq;
    first [done | intros [=]; simplify_eq | idtac].
  all: match goal with
       | H : int64ToInt _ = inl _ |- _ => apply int64ToInt_error in H as [?|?]
       | H : uint64ToUint _ = inl _ |- _ => apply uint64ToUint_error in H
       end; discriminate.
Qed.





(** X20. With a decoded top-level map, [Load] binds from the table under
    [env]; an entry under [env] that is not a table makes it panic right
    after decoding, before any field is looked at. *)
Theorem Load_section (name : gostring) (fs : list StructField)
    (file envPrefix env : gostring) (w : world_t)
    (topLevel : gmap gostring dyn_t) (entry : dyn_t)
    (Hdec : testHarnessDecodeFile file = (Some (DMap (Some topLevel)), None))
    (Hentry : topLevel !! env = Some entry) :
  Load (Some (TyPtr (TyStruct name fs))) file envPrefix env w
  = match entry with
    | DMap mp => bind envPrefix (TyStruct name fs) mp (noted (EvDecodeFile file) w)
    | _ => (Panic PanicInterfaceConversion, noted (EvDecodeFile file) w)
    end.
Proof.
  rewrite run_Load_struct, Hdec. cbn. rewrite Hentry. by destruct entry.
Qed.

End BinderMore.

(** ** The calls of one [Load], in order *)

Section TraceFacts.
Context {U : CaseTables} {P : Platform}.

Lemma event_field_index (e : Event Float64 Time) (j : nat) :
  event_field e = Some j -> event_index e = j.
Proof. destruct e; cbn; congruence. Qed.

Lemma stores_to_app (j : nat) (l1 l2 : list (Event Float64 Time)) :
  stores_to j (l1 ++ l2) = (stores_to j l1 + stores_to j l2)%nat.
Proof. unfold stores_to. by rewrite filter_app, length_app. Qed.

Lemma stores_to_elsewhere (j : nat) (l : list (Event Float64 Time)) :
  Forall (fun e => event_field e <> Some j) l -> stores_to j l = 0%nat.
Proof.
  unfold stores_to. induction 1 as [|e l He _ IH]; [reflexivity|].
  rewrite filter_cons. destruct (decide _) as [Hs|]; [|exact IH].
  destruct e; cbn in *; try discriminate. case_bool_decide; congruence.
Qed.

Lemma same_field_in_order (i : nat) (l : list (Event Float64 Time)) :
  Forall (fun e => event_field e = Some i) l -> in_field_order l.
Proof.
  induction 1 as [|e l He Hl IH]; constructor; [exact IH|].
  eapply Forall_impl; [exact Hl|]. cbn. intros e' He'.
  by rewrite (event_field_index e i), (event_field_index e' i).
Qed.

Ltac close_trace l :=
  exists l; split_and!;
  [ reflexivity
  | repeat constructor
  | unfold stores_to; rewrite ?filter_cons, ?filter_nil;
    repeat destruct (decide _); cbn in *; solve [discriminate | lia] ].

(** The calls of one iteration: all about field [i], at most one store. *)
Lemma bind_body_trace (envPrefix : gostring) (config : config_t) (i : nat)
    (f : StructField) (w w' : world_t) (r : Result (option error_t)) :
  bind_body envPrefix config i f w = (r, w') ->
  exists new,
    trace w' = new ++ trace w /\
    Forall (fun e => event_field e = Some i) new /\
    (stores_to i new <= 1)%nat.
Proof.
  intros Hb.
  destruct (decide (getKeyName f = [])) as [Hkey|Hkey].
  { rewrite bind_body_omit in Hb by done. injection Hb as <- <-. close_trace (@nil (Event Float64 Time)). }
  pose (g := EvGetenv (Float64:=Float64) (Time:=Time) i (envName envPrefix f)).
  pose (c := EvConfig (Float64:=Float64) (Time:=Time) i (getKeyName f)).
  destruct (decide (Getenv (envName envPrefix f) = [])) as [Henv|Henv].
  - rewrite bind_body_file in Hb by done.
    destruct (config ≫= _) as [intf|].
    + rewrite assignFromIntf_fileValue in Hb.
      destruct (fileValue intf (Type_ f)) as [[err|v]|p]; injection Hb as <- <-.
      * close_trace [c; g].
      * close_trace [EvSet i v; c; g].
      * close_trace [c; g].
    + injection Hb as <- <-. close_trace [c; g].
  - rewrite bind_body_env in Hb by done.
    destruct (parseEnv _ _) as [err|v]; injection Hb as <- <-.
    + close_trace [g].
    + close_trace [EvSet i v; g].
Qed.

(** The calls of the loop from field [i] on. *)
Lemma bind_from_trace (envPrefix : gostring) (config : config_t)
    (fs : list StructField) (i : nat) (w w' : world_t)
    (r : Result (option error_t)) :
  bind_from envPrefix config i fs w = (r, w') ->
  exists new,
    trace w' = new ++ trace w /\
    Forall (fun e => exists j, event_field e = Some j /\ (i <= j < i + length fs)%nat) new /\
    (forall j, (stores_to j new <= 1)%nat) /\
    in_field_order new.
Proof.
  revert i w. induction fs as [|f rest IH]; intros i w Hb.
  { injection Hb as <- <-. exists []. split_and!; [done|constructor|cbn; lia|constructor]. }
  rewrite run_bind_from_cons in Hb.
  destruct (bind_body envPrefix config i f w) as [r1 w1] eqn:Hbody.
  destruct (bind_body_trace _ _ _ _ _ _ _ Hbody) as (nb & Htb & Hfb & Hsb).
  assert (Hbody_ok :
    Forall (fun e => exists j, event_field e = Some j /\
                               (i <= j < i + length (f :: rest))%nat) nb /\
    (forall j, (stores_to j nb <= 1)%nat) /\ in_field_order nb).
  { split_and!.
    - eapply Forall_impl; [exact Hfb|]. cbn. intros e He. exists i. split; [done|lia].
    - intros j. destruct (decide (j = i)) as [->|Hj]; [done|].
      rewrite stores_to_elsewhere; [lia|].
      eapply Forall_impl; [exact Hfb|]. cbn. congruence.
    - by eapply same_field_in_order. }
  destruct r1 as [[e|]|p];
    try (injection Hb as <- <-; exists nb; by destruct Hbody_ok as (? & ? & ?)).
  destruct (IH (S i) w1 Hb) as (nr & Htr & Hfr & Hsr & Hor).
  exists (nr ++ nb). split_and!.
  - by rewrite Htr, Htb, app_assoc.
  - apply Forall_app. split; [|apply Hbody_ok].
    eapply Forall_impl; [exact Hfr|]. cbn. intros e (j & He & Hj).
    exists j. split; [done|lia].
  - intros j. rewrite stores_to_app.
    destruct (decide (j = i)) as [->|Hj].
    + rewrite (stores_to_elsewhere i nr); [lia|].
      eapply Forall_impl; [exact Hfr|]. cbn. intros e (j & He & Hj) Hi.
      rewrite He in Hi. injection Hi as ->. lia.
    + rewrite (stores_to_elsewhere j nb); [specialize (Hsr j); lia|].
      eapply Forall_impl; [exact Hfb|]. cbn. congruence.
  - apply StronglySorted_app_2; [|exact Hor|apply Hbody_ok].
    intros e1 e2 H1 H2.
    rewrite Forall_forall in Hfr, Hfb.
    destruct (Hfr e1 H1) as (j & He1 & Hj).
    rewrite (event_field_index e1 j He1), (event_field_index e2 i (Hfb e2 H2)). lia.
Qed.

Lemma Load_trace (name : gostring) (fs : list StructField)
    (file envPrefix env : gostring) (w w' : world_t)
    (r : Result (option error_t)) :
  Load (Some (TyPtr (TyStruct name fs))) file envPrefix env w = (r, w') ->
  exists new,
    trace w' = new ++ EvDecodeFile file :: trace w /\
    Forall (fun e => exists j, event_field e = Some j /\ (j < length fs)%nat) new /\
    (forall j, (stores_to j new <= 1)%nat) /\
    in_field_order new.
Proof.
  rewrite run_Load_struct. cbn zeta. intros Hrun.
  assert (Hnil : forall r0, (r0, noted (EvDecodeFile file) w) = (r, w') ->
    exists new,
      trace w' = new ++ EvDecodeFile file :: trace w /\
      Forall (fun e => exists j, event_field e = Some j /\ (j < length fs)%nat) new /\
      (forall j, (stores_to j new <= 1)%nat) /\ in_field_order new).
  { intros r0 [= <- <-]. exists []. split_and!; [done|constructor|cbn; lia|constructor]. }
  destruct (fatal _); [by eapply Hnil|].
  destruct (envLevelOf _ env) as [mp|p]; [|by eapply Hnil].
  destruct (bind_from_trace _ _ _ _ _ _ _ Hrun) as (new & Ht & Hf & Hs & Ho).
  exists new. split_and!; [done| |done|done].
  eapply Forall_impl; [exact Hf|]. cbn. intros e (j & He & Hj). exists j. split; [done|lia].
Qed.

(** X21. [Load] calls the decoder once, and before anything else: every
    later call is an environment lookup, a mapping lookup or a store for
    one of the fields of the record. *)
Theorem decoder_called_once_first (name : gostring) (fs : list StructField)
    (file envPrefix env : gostring) (w w' : world_t)
    (r : Result (option error_t))
    (Hrun : Load (Some (TyPtr (TyStruct name fs))) file envPrefix env w = (r, w')) :
  exists new,
    trace w' = new ++ EvDecodeFile file :: trace w /\
    Forall (fun e => exists j, event_field e = Some j /\ (j < length fs)%nat) new.
Proof.
  destruct (Load_trace _ _ _ _ _ _ _ _ Hrun) as (new & Ht & Hf & _). eauto.
Qed.

(** X22. One [Load] stores to each field at most once. *)
Theorem one_store_per_field (name : gostring) (fs : list StructField)
    (file envPrefix env : gostring) (w w' : world_t)
    (r : Result (option error_t))
    (Hrun : Load (Some (TyPtr (TyStruct name fs))) file envPrefix env w = (r, w')) :
  exists new,
    trace w' = new ++ EvDecodeFile file :: trace w /\
    forall j, (stores_to j new <= 1)%nat.
Proof.
  destruct (Load_trace _ _ _ _ _ _ _ _ Hrun) as (new & Ht & _ & Hs & _). eauto.
Qed.

(** X23. [Load] goes through the fields in declaration order: in the
    calls it makes, the field index never goes back. *)
Theorem fields_in_declaration_order (name : gostring) (fs : list StructField)
    (file envPrefix env : gostring) (w w' : world_t)
    (r : Result (option error_t))
    (Hrun : Load (Some (TyPtr (TyStruct name fs))) file envPrefix env w = (r, w')) :
  exists new,
    trace w' = new ++ EvDecodeFile file :: trace w /\ in_field_order new.
Proof.
  destruct (Load_trace _ _ _ _ _ _ _ _ Hrun) as (new & Ht & _ & _ & Ho). eauto.
Qed.

End TraceFacts.

(** ** Runs of the further properties *)


Lemma assignFromEnv_unsupported_witness :
  @assignFromEnv sample64 (str "a,b") typeStringArr 0%nat sample_world
  = (Ok (Some (ErrUnsupportedStruct (str "[]string"))), sample_world).
Proof.
  exact (@assignFromEnv_unsupported sample64 (str "a,b") typeStringArr 0%nat
           sample_world eq_refl).
Defined.

Lemma text_sources_agree_witness :
  @assignFromEnv sample64 (str "15s") typeDuration 0%nat sample_world
  = @assignFromIntf sample64 (DString (str "15s")) typeDuration 0%nat sample_world.
Proof.
  apply (@text_sources_agree sample64 (str "15s") typeDuration 0%nat sample_world).
  by right.
Defined.


Lemma assignFromIntf_failure_witness :
  (@assignFromIntf sample64 (DBool true) int64_type 0%nat sample_world).2 = sample_world.
Proof.
  refine (@assignFromIntf_failure sample64 (DBool true) int64_type 0%nat sample_world
            _ (@assignFromIntf sample64 (DBool true) int64_type 0%nat sample_world).1 _ _).
  - reflexivity.
  - discriminate.
Defined.

Lemma bind_first_error_witness :
  exists k f cause,
    sample_fields !! k = Some f /\
    ErrAssignKey (str "port") (ErrExt (str "invalid syntax"))
    = ErrAssignKey (@getKeyName sample_tables f) cause /\
    forall j, (0 + k < j)%nat ->
      unseen j sample_world
        (@bind_from sample_tables bad_port [] None 0 sample_fields sample_world).2.
Proof.
  refine (@bind_first_error sample_tables bad_port [] None sample_fields 0%nat
            sample_world _ _ _).
  vm_compute. reflexivity.
Defined.

Lemma Load_errors_witness :
  (exists was,
     ErrAssignKey (str "port") (ErrExt (str "invalid syntax")) = ErrNotStructPtr was /\
     (@Load sample_tables bad_port (Some sample_record) (str "config.toml") []
        (str "dev") sample_world).2 = sample_world) \/
  (exists x,
     ErrAssignKey (str "port") (ErrExt (str "invalid syntax")) = ErrExt x /\
     (@testHarnessDecodeFile bad_port (str "config.toml")).2 = Some x /\
     @IsNotExist bad_port x = false) \/
  (exists key cause,
     @ErrAssignKey gostring (str "port") (ErrExt (str "invalid syntax"))
     = ErrAssignKey key cause).
Proof.
  refine (@Load_errors sample_tables bad_port (Some sample_record) (str "config.toml") []
            (str "dev") sample_world _ _ _).
  vm_compute. reflexivity.
Defined.

Lemma Load_schema_error_witness :
  @Load sample_tables sample64 (Some (TyPtr (TyOther (mkType KInt (str "int")))))
    (str "config.toml") [] (str "dev") sample_world
  = (Ok (Some (ErrNotStructPtr (str "int"))), sample_world).
Proof.
  refine (proj1 (@Load_schema_error sample_tables sample64
                   (TyPtr (TyOther (mkType KInt (str "int"))))
                   (str "config.toml") [] (str "dev") sample_world) _).
  cbn. intros [_ [=]].
Defined.

Lemma conversion_error_iff_witness :
  @assignFromIntf sample64 (DString (str "8080")) (mkType KInt (str "int")) 0%nat
    sample_world
  = (Ok (Some (ErrUnsupportedConversion (str "int") (str "string"))), sample_world).
Proof.
  refine (proj2 (@conversion_error_iff sample64 (DString (str "8080"))
                   (mkType KInt (str "int")) 0%nat sample_world _) _).
  - discriminate.
  - reflexivity.
Defined.



Lemma Load_section_witness :
  @Load sample_tables file_only (Some sample_record) (str "config.toml") []
    (str "dev") sample_world
  = @bind sample_tables file_only [] (TyStruct (str "main.Config") sample_fields)
      (Some sample_dev) (noted (EvDecodeFile (str "config.toml")) sample_world).
Proof.
  refine (@Load_section sample_tables file_only (str "main.Config") sample_fields
            (str "config.toml") [] (str "dev") sample_world
            {[ str "dev" := DMap (Some sample_dev) ]} (DMap (Some sample_dev)) _ _).
  - reflexivity.
  - vm_compute. reflexivity.
Defined.

Lemma decoder_called_once_first_witness :
  exists new,
    trace sample_run.2 = new ++ EvDecodeFile (str "config.toml") :: trace sample_world /\
    Forall (fun e => exists j, event_field e = Some j /\ (j < length sample_fields)%nat) new.
Proof.
  refine (@decoder_called_once_first sample_tables with_file (str "main.Config")
            sample_fields (str "config.toml") [] (str "dev") sample_world _
            sample_run.1 _).
  vm_compute. reflexivity.
Defined.

Lemma one_store_per_field_witness :
  exists new,
    trace sample_run.2 = new ++ EvDecodeFile (str "config.toml") :: trace sample_world /\
    forall j, (@stores_to with_file j new <= 1)%nat.
Proof.
  refine (@one_store_per_field sample_tables with_file (str "main.Config")
            sample_fields (str "config.toml") [] (str "dev") sample_world _
            sample_run.1 _).
  vm_compute. reflexivity.
Defined.

Lemma fields_in_declaration_order_witness :
  exists new,
    trace sample_run.2 = new ++ EvDecodeFile (str "config.toml") :: trace sample_world /\
    @in_field_order with_file new.
Proof.
  refine (@fields_in_declaration_order sample_tables with_file (str "main.Config")
            sample_fields (str "config.toml") [] (str "dev") sample_world _
            sample_run.1 _).
  vm_compute. reflexivity.
Defined.
